(** * Faust: the application service and the web facade

    A shallow embedding of

    - [faust/web/base.py]: the [Web] facade and its [url] property;
    - [faust/app/service.py]: [AppService], the service that starts and
      stops an application: the choice of sub-services by mode, the
      start hooks, the wait for table recovery and the activation of the
      tasks and services registered by the user.

    Python objects with identity (services, sensors, agents) live in a
    store indexed by object identifiers; attribute writes on such an
    object are updates of the store.  A method of [AppService] is a
    computation in a state-and-exception monad over that store: state
    written before a [raise] stays written.  Calls that leave the two
    files (the hooks of the application object, the user's task
    callables, the start of a sub-service) are recorded, in order, in a
    trace of events.  The call of a task binds its arguments against
    the signature of the task and raises [TypeError] when they do not
    fit. *)

From Stdlib Require Import Ascii String.
From stdpp Require Import gmap strings list pretty.

#[local] Set Warnings "-clear-no-such-hyp".
Local Open Scope string_scope.

(** ** faust/web/base.py *)

Module Web.

(** [class Web(Service)]: the two annotated attributes. *)
Record Web := {
  bind : string;
  port : Z }.

(** [str.format] for templates whose only replacement fields are the
    automatic field [{}]: each field takes the next positional
    argument; a field with no argument left is Python's [IndexError],
    rendered as [None]. *)
Fixpoint format (template : string) (args : list string) : option string :=
  match template with
  | EmptyString => Some EmptyString
  | String "{"%char (String "}"%char rest) =>
      match args with
      | a :: args' => (fun s => a +:+ s) <$> format rest args'
      | [] => None
      end
  | String c rest => String c <$> format rest args
  end.

(** [str(n)] for an [int]: decimal digits, with a minus sign below zero. *)
Definition str (n : Z) : string := pretty n.

(** [Web.url]: ['http://localhost:{}/'.format(self.port)]. *)
Definition url (self : Web) : option string :=
  format "http://localhost:{}/" [str (port self)].

(** The url as the specification words it: scheme, the bound address
    as host, the port. *)
Definition url_spec (self : Web) : string :=
  "http://" +:+ bind self +:+ ":" +:+ str (port self) +:+ "/".

End Web.

(** ** faust/app/service.py *)

Module AppService.

(** *** Objects *)

(** Identity of a Python object, and of an event loop. *)
Abbreviation ObjId := nat (only parsing).
Abbreviation Loop := nat (only parsing).

(** Modelled from the spec: the states of a LifecycleNode (the generic
    [Service] base class is not under src/). *)
Inductive NodeState :=
| Init | Starting | Started | Stopping | Stopped | Crashed | Restarting.

(** What this file reads and writes of a service object: its [loop]
    attribute, the parent of its [beacon], and its lifecycle state. *)
Record ServiceObj := {
  svc_loop : Loop;
  svc_beacon_parent : option ObjId;
  svc_state : NodeState }.

Definition with_loop (l : Loop) (o : ServiceObj) : ServiceObj :=
  {| svc_loop := l;
     svc_beacon_parent := svc_beacon_parent o;
     svc_state := svc_state o |}.

Definition with_beacon_parent (p : ObjId) (o : ServiceObj) : ServiceObj :=
  {| svc_loop := svc_loop o;
     svc_beacon_parent := Some p;
     svc_state := svc_state o |}.

Definition with_state (s : NodeState) (o : ServiceObj) : ServiceObj :=
  {| svc_loop := svc_loop o;
     svc_beacon_parent := svc_beacon_parent o;
     svc_state := s |}.

(** The kind of a parameter, as [inspect.Parameter.kind] has it. *)
Inductive ParamKind :=
| PositionalOnly | PositionalOrKeyword | VarPositional | KeywordOnly
| VarKeyword.

(** A declared parameter: its kind, and whether it has a default. *)
Record Param := {
  param_kind : ParamKind;
  param_default : bool }.

(** A callable registered with [@app.task], a coroutine function:
    [task_signature] is [inspect.signature(task).parameters], in the
    order of the declaration. *)
Record Task := {
  task_name : string;
  task_signature : list Param }.

(** The size of [inspect.signature(task).parameters]. *)
Definition task_parameters (t : Task) : nat := length (task_signature t).

Definition takes_positional (p : Param) : bool :=
  match param_kind p with
  | PositionalOnly | PositionalOrKeyword => true
  | _ => false
  end.

Definition is_var_positional (p : Param) : bool :=
  match param_kind p with
  | VarPositional => true
  | _ => false
  end.

Definition is_keyword_only (p : Param) : bool :=
  match param_kind p with
  | KeywordOnly => true
  | _ => false
  end.

(** Whether a call with [n] positional arguments and no keyword
    argument fits the signature [sig], as Python binds arguments: the
    arguments fill the positional parameters in order, and any beyond
    them need a variadic parameter; a positional parameter left
    unfilled and a
    keyword-only parameter need a default. *)
Definition binds (sig : list Param) (n : nat) : bool :=
  ((n <=? length (List.filter takes_positional sig))%nat
   || existsb is_var_positional sig)
  && forallb param_default (drop n (List.filter takes_positional sig))
  && forallb param_default (List.filter is_keyword_only sig).

(** The only value this file passes to a task: [self.app]. *)
Inductive Arg := TheApp.

(** The awaitable a task call returns, named by the call that made it. *)
Record Coroutine := {
  coro_task : Task;
  coro_args : list Arg }.

(** An entry of [app._extra_services]: a service, or a service class
    ([inspect.isclass]). *)
Inductive ExtraService :=
| ServiceInstance (o : ObjId)
| ServiceClass (cls : string).

(** *** The application object, as [AppService] uses it *)

Record App := {
  client_only : bool;
  monitor : ObjId;
  sensors : gset ObjId;
  agents : list (string * ObjId);
  producer : ObjId;
  consumer : ObjId;
  _leader_assignor : ObjId;
  _reply_consumer : ObjId;
  topics : ObjId;
  tables : ObjId;
  _fetcher : ObjId;
  _tasks : list Task;
  _extra_services : list ExtraService;
  on_startup_finished : bool;
  app_label : string;
  app_shortlabel : string;
  directories_created : bool;
  finalized : bool }.

Definition with_sensors (s : gset ObjId) (a : App) : App :=
  {| client_only := client_only a; monitor := monitor a; sensors := s;
     agents := agents a; producer := producer a; consumer := consumer a;
     _leader_assignor := _leader_assignor a;
     _reply_consumer := _reply_consumer a; topics := topics a;
     tables := tables a; _fetcher := _fetcher a; _tasks := _tasks a;
     _extra_services := _extra_services a;
     on_startup_finished := on_startup_finished a;
     app_label := app_label a; app_shortlabel := app_shortlabel a;
     directories_created := directories_created a;
     finalized := finalized a |}.

Definition with_directories_created (b : bool) (a : App) : App :=
  {| client_only := client_only a; monitor := monitor a;
     sensors := sensors a;
     agents := agents a; producer := producer a; consumer := consumer a;
     _leader_assignor := _leader_assignor a;
     _reply_consumer := _reply_consumer a; topics := topics a;
     tables := tables a; _fetcher := _fetcher a; _tasks := _tasks a;
     _extra_services := _extra_services a;
     on_startup_finished := on_startup_finished a;
     app_label := app_label a; app_shortlabel := app_shortlabel a;
     directories_created := b;
     finalized := finalized a |}.

Definition with_finalized (b : bool) (a : App) : App :=
  {| client_only := client_only a; monitor := monitor a;
     sensors := sensors a;
     agents := agents a; producer := producer a; consumer := consumer a;
     _leader_assignor := _leader_assignor a;
     _reply_consumer := _reply_consumer a; topics := topics a;
     tables := tables a; _fetcher := _fetcher a; _tasks := _tasks a;
     _extra_services := _extra_services a;
     on_startup_finished := on_startup_finished a;
     app_label := app_label a; app_shortlabel := app_shortlabel a;
     directories_created := directories_created a;
     finalized := b |}.

(** *** The service itself *)

(** [self]: the attributes of [AppService] and of the [Service] base
    class that the methods below touch.  [first_start_done] is the
    flag that tells a first start from a restart. *)
Record Self := {
  self_id : ObjId;
  loop : Loop;
  app : App;
  _children : list ObjId;
  _futures : list Coroutine;
  _extra_service_instances : option (list ObjId);
  state : NodeState;
  first_start_done : bool }.

Definition with_app (a : App) (s : Self) : Self :=
  {| self_id := self_id s; loop := loop s; app := a;
     _children := _children s; _futures := _futures s;
     _extra_service_instances := _extra_service_instances s;
     state := state s; first_start_done := first_start_done s |}.

Definition with_children (c : list ObjId) (s : Self) : Self :=
  {| self_id := self_id s; loop := loop s; app := app s;
     _children := c; _futures := _futures s;
     _extra_service_instances := _extra_service_instances s;
     state := state s; first_start_done := first_start_done s |}.

Definition with_futures (f : list Coroutine) (s : Self) : Self :=
  {| self_id := self_id s; loop := loop s; app := app s;
     _children := _children s; _futures := f;
     _extra_service_instances := _extra_service_instances s;
     state := state s; first_start_done := first_start_done s |}.

Definition with_extra_service_instances (i : option (list ObjId))
    (s : Self) : Self :=
  {| self_id := self_id s; loop := loop s; app := app s;
     _children := _children s; _futures := _futures s;
     _extra_service_instances := i;
     state := state s; first_start_done := first_start_done s |}.

Definition with_node_state (n : NodeState) (s : Self) : Self :=
  {| self_id := self_id s; loop := loop s; app := app s;
     _children := _children s; _futures := _futures s;
     _extra_service_instances := _extra_service_instances s;
     state := n; first_start_done := first_start_done s |}.

Definition with_first_start_done (b : bool) (s : Self) : Self :=
  {| self_id := self_id s; loop := loop s; app := app s;
     _children := _children s; _futures := _futures s;
     _extra_service_instances := _extra_service_instances s;
     state := state s; first_start_done := b |}.

(** *** Events and the world *)

(** The hooks and methods of the application object that the service
    calls. *)
Inductive AppHook :=
| create_directories | app_on_first_start | finalize | app_on_start
| startup_finished | app_on_started | app_on_stop | app_on_shutdown
| app_on_restart.

Inductive Event :=
| AppCall (h : AppHook)
| WaitForStopped (stopped : bool)
| TaskCall (t : Task) (args : list Arg)
| AddFuture (c : Coroutine)
| Instantiate (cls : string) (o : ObjId)
| ServiceStart (o : ObjId).

(** [stopped_during_recovery] is the environment's part in
    [wait_for_stopped]: whether a concurrent stop ends the wait on
    [recovery_completed] before recovery does. *)
Record World := {
  self : Self;
  heap : gmap nat ServiceObj;
  stopped_during_recovery : bool;
  trace : list Event }.

Definition with_self (s : Self) (w : World) : World :=
  {| self := s; heap := heap w;
     stopped_during_recovery := stopped_during_recovery w;
     trace := trace w |}.

Definition with_heap (h : gmap nat ServiceObj) (w : World) : World :=
  {| self := self w; heap := h;
     stopped_during_recovery := stopped_during_recovery w;
     trace := trace w |}.

Definition with_trace (t : list Event) (w : World) : World :=
  {| self := self w; heap := heap w;
     stopped_during_recovery := stopped_during_recovery w;
     trace := t |}.

(** *** The monad: state, and exceptions that keep the state *)

Inductive Exn :=
| ImproperlyConfigured (msg : string)
| TypeError.

Inductive Result (A : Type) :=
| Ok (a : A)
| Raise (e : Exn).
Arguments Ok {A} a.
Arguments Raise {A} e.

Definition M (A : Type) : Type := World -> Result A * World.

Definition ret {A} (a : A) : M A := fun w => (Ok a, w).

Definition bnd {A B} (m : M A) (k : A -> M B) : M B :=
  fun w =>
    match m w with
    | (Ok a, w') => k a w'
    | (Raise e, w') => (Raise e, w')
    end.

Definition raise {A} (e : Exn) : M A := fun w => (Raise e, w).

Definition gets {A} (f : World -> A) : M A := fun w => (Ok (f w), w).

Definition modify (f : World -> World) : M unit := fun w => (Ok tt, f w).

Declare Scope svc_scope.
Delimit Scope svc_scope with svc.
Notation "x <- m ;; k" := (bnd m (fun x => k))
  (at level 100, m at next level, right associativity) : svc_scope.
Notation "m ;; k" := (bnd m (fun _ => k))
  (at level 100, right associativity) : svc_scope.
Local Open Scope svc_scope.

(** [for x in l: body(x)] *)
Fixpoint for_each {A} (l : list A) (body : A -> M unit) : M unit :=
  match l with
  | [] => ret tt
  | x :: l' => body x ;; for_each l' body
  end.

(** [[f(x) for x in l]] *)
Fixpoint comprehension {A B} (f : A -> M B) (l : list A) : M (list B) :=
  match l with
  | [] => ret []
  | x :: l' => y <- f x ;; ys <- comprehension f l' ;; ret (y :: ys)
  end.

Definition emit (e : Event) : M unit :=
  modify (fun w => with_trace ((trace w ++ [e])%list) w).

Definition modify_self (f : Self -> Self) : M unit :=
  modify (fun w => with_self (f (self w)) w).

Definition modify_app (f : App -> App) : M unit :=
  modify_self (fun s => with_app (f (app s)) s).

Definition modify_obj (o : ObjId) (f : ServiceObj -> ServiceObj) : M unit :=
  modify (fun w => with_heap (alter f o (heap w)) w).

Definition the_app (w : World) : App := app (self w).

(** *** What the methods use of their collaborators *)

(** A call of a hook or method of [self.app]. *)
Definition app_call (h : AppHook) : M unit := emit (AppCall h).

(** Modelled from the spec: [app._create_directories()] (the [App]
    class is not under src/) creates the required on-disk
    directories. *)
Definition _create_directories : M unit :=
  app_call create_directories ;;
  modify_app (with_directories_created true).

(** Modelled from the spec: [app.finalize()] (not under src/) seals the
    configuration of the application. *)
Definition app_finalize : M unit :=
  app_call finalize ;;
  modify_app (with_finalized true).

(** Modelled from the spec: [beacon.reattach(parent)] (the beacon of
    the [Service] base class is not under src/) gives the node its one
    parent. *)
Definition beacon_reattach (o parent : ObjId) : M unit :=
  modify_obj o (with_beacon_parent parent).

(** [obj.loop = l] *)
Definition set_loop (o : ObjId) (l : Loop) : M unit :=
  modify_obj o (with_loop l).

(** Modelled from the spec: [app.sensors.add(sensor)] (the sensor
    collection is not under src/): a set of sensor objects, so that a
    sensor added twice is held once. *)
Definition sensors_add (o : ObjId) : M unit :=
  modify_app (fun a => with_sensors ({[o]} ∪ sensors a) a).

(** [dict.values()], in insertion order. *)
Definition values {K V} (d : list (K * V)) : list V := map snd d.

(** Modelled from the spec: [self.wait_for_stopped(barrier)] (the
    [Service] base class is not under src/) waits until the barrier
    resolves or the node is stopped, and answers whether it was
    stopped. *)
Definition wait_for_stopped : M bool :=
  stopped <- gets stopped_during_recovery ;;
  emit (WaitForStopped stopped) ;;
  ret stopped.

(** [task(...)]: calling a coroutine function runs none of its body;
    it binds the arguments and gives an awaitable, or raises
    [TypeError] when the arguments do not fit the signature. *)
Definition call_task (t : Task) (args : list Arg) : M Coroutine :=
  emit (TaskCall t args) ;;
  if binds (task_signature t) (length args)
  then ret {| coro_task := t; coro_args := args |}
  else raise TypeError.

(** Modelled from the spec: [self.add_future(target)] (the [Service]
    base class is not under src/) registers the awaitable as a tracked
    background activity of the service. *)
Definition add_future (c : Coroutine) : M unit :=
  modify_self (fun s => with_futures ((_futures s ++ [c])%list) s) ;;
  emit (AddFuture c).

(** Modelled from the spec: the start of a sub-service (not under
    src/) brings it to [Started]. *)
Definition service_start (o : ObjId) : M unit :=
  emit (ServiceStart o) ;;
  modify_obj o (with_state Started).

(** Modelled from the spec: [self.add_runtime_dependency(service)]
    (the [Service] base class is not under src/) adds the service to
    the live list of children and starts it at once. *)
Definition add_runtime_dependency (o : ObjId) : M unit :=
  modify_self (fun s => with_children ((_children s ++ [o])%list) s) ;;
  service_start o.

(** Modelled from the spec: [cls(loop=l, beacon=parent)] (the
    constructor of the [Service] base class is not under src/) makes a
    new service object, not yet started, bound to the loop [l] and with
    its beacon under [parent]. *)
Definition instantiate (cls : string) (l : Loop) (parent : ObjId)
    : M ObjId :=
  o <- gets (fun w => fresh ({[self_id (self w)]} ∪ dom (heap w))) ;;
  modify (fun w =>
    with_heap (<[o := {| svc_loop := l;
                         svc_beacon_parent := Some parent;
                         svc_state := Init |}]> (heap w)) w) ;;
  emit (Instantiate cls o) ;;
  ret o.

(** *** [class AppService(Service)] *)

(** [_components_client]: the components started in client-only mode. *)
Definition _components_client : M (list ObjId) :=
  a <- gets the_app ;;
  ret [producer a; consumer a; _reply_consumer a; topics a; _fetcher a].

(** [_components_server]: the components started in server mode, after
    the monitor has been added to the sensors of the app. *)
Definition _components_server : M (list ObjId) :=
  a <- gets the_app ;;
  s <- gets self ;;
  beacon_reattach (monitor a) (self_id s) ;;
  set_loop (monitor a) (loop s) ;;
  sensors_add (monitor a) ;;
  a <- gets the_app ;;
  ret (elements (sensors a)
         ++ [producer a]
         ++ [consumer a]
         ++ [_leader_assignor a]
         ++ [_reply_consumer a]
         ++ values (agents a)
         ++ [topics a]
         ++ [tables a]
         ++ [_fetcher a])%list.

Definition on_init_dependencies : M (list ObjId) :=
  a <- gets the_app ;;
  if client_only a then _components_client else _components_server.

Definition on_first_start : M unit :=
  _create_directories ;;
  a <- gets the_app ;;
  match agents a with
  | [] =>
      raise (ImproperlyConfigured
               "Attempting to start app that has no agents")
  | _ :: _ => app_call app_on_first_start
  end.

Definition on_start : M unit :=
  app_finalize ;;
  app_call app_on_start.

Definition on_started_init_extra_tasks : M unit :=
  tasks <- gets (fun w => _tasks (the_app w)) ;;
  for_each tasks (fun task =>
    target <- (if negb (task_parameters task =? 0)%nat
               then call_task task [TheApp]
               else call_task task []) ;;
    add_future target).

Definition _prepare_subservice (service : ExtraService) : M ObjId :=
  match service with
  | ServiceClass cls =>
      s <- gets self ;;
      instantiate cls (loop s) (self_id s)
  | ServiceInstance o => ret o
  end.

Definition on_started_init_extra_services : M unit :=
  inst <- gets (fun w => _extra_service_instances (self w)) ;;
  match inst with
  | None =>
      a <- gets the_app ;;
      l <- comprehension _prepare_subservice (_extra_services a) ;;
      modify_self (with_extra_service_instances (Some l)) ;;
      for_each l add_runtime_dependency
  | Some _ => ret tt
  end.

Definition on_started : M unit :=
  stopped <- wait_for_stopped ;;
  if negb stopped then
    on_started_init_extra_tasks ;;
    on_started_init_extra_services ;;
    a <- gets the_app ;;
    (if on_startup_finished a then app_call startup_finished
     else ret tt) ;;
    app_call app_on_started
  else ret tt.

Definition on_stop : M unit := app_call app_on_stop.

Definition on_shutdown : M unit := app_call app_on_shutdown.

Definition on_restart : M unit := app_call app_on_restart.

Definition label (w : World) : string := app_label (the_app w).

Definition shortlabel (w : World) : string := app_shortlabel (the_app w).

(** Modelled from the spec: [start()] of the generic LifecycleNode (the
    [Service] base class is not under src/).  The node enters
    [Starting] and its list of children is fixed; on the very first
    start the one-time hook runs, before any child starts; the
    children start one after the other in declared order; the node's
    own start hook runs; the node is [Started]; the started hook
    runs.  An exception leaves through [start()] to its caller. *)
Definition start : M unit :=
  modify_self (with_node_state Starting) ;;
  again <- gets (fun w => first_start_done (self w)) ;;
  (if again then ret tt
   else
     deps <- on_init_dependencies ;;
     modify_self (fun s => with_children ((_children s ++ deps)%list) s) ;;
     on_first_start) ;;
  children <- gets (fun w => _children (self w)) ;;
  for_each children service_start ;;
  on_start ;;
  modify_self (with_node_state Started) ;;
  modify_self (with_first_start_done true) ;;
  on_started.

(** Running a computation: its outcome, and the world it leaves. *)
Definition outcome {A} (m : M A) (w : World) : Result A := fst (m w).
Definition after {A} (m : M A) (w : World) : World := snd (m w).

(** The events a computation adds to the trace of [w]. *)
Definition events {A} (m : M A) (w : World) : list Event :=
  drop (length (trace w)) (trace (after m w)).

(** *** Vocabulary of the statements *)

(** How often [o] occurs in [l]. *)
Definition occurrences (o : ObjId) (l : list ObjId) : nat :=
  length (filter (fun x => x = o) l).

Definition is_task_event (e : Event) : bool :=
  match e with
  | TaskCall _ _ | AddFuture _ => true
  | _ => false
  end.

Definition is_service_event (e : Event) : bool :=
  match e with
  | Instantiate _ _ | ServiceStart _ => true
  | _ => false
  end.

Definition is_service_start (e : Event) : bool :=
  match e with
  | ServiceStart _ => true
  | _ => false
  end.

(** The awaitable [c] comes from a call of [t] with the arguments its
    declaration asks for: none for no parameter, the app for one. *)
Definition invoked_as_declared (t : Task) (c : Coroutine) : Prop :=
  coro_task c = t
  /\ (task_parameters t = 0 -> coro_args c = [])
  /\ (task_parameters t = 1 -> coro_args c = [TheApp]).

(** What the activation of [t] schedules: the call of [t], on the app
    unless [t] declares no parameter. *)
Definition target_of (t : Task) : Coroutine :=
  {| coro_task := t;
     coro_args := if (task_parameters t =? 0)%nat then [] else [TheApp] |}.

(** The call that the activation of [t] makes fits the signature of
    [t]. *)
Definition accepts_call (t : Task) : bool :=
  binds (task_signature t) (length (coro_args (target_of t))).

(** The tasks of [ts] before the first one that rejects its call. *)
Fixpoint accepted_prefix (ts : list Task) : list Task :=
  match ts with
  | [] => []
  | t :: ts' => if accepts_call t then t :: accepted_prefix ts' else []
  end.

(** The first task of [ts] that rejects its call, if there is one. *)
Fixpoint first_rejected (ts : list Task) : option Task :=
  match ts with
  | [] => None
  | t :: ts' => if accepts_call t then first_rejected ts' else Some t
  end.

(** The call that is rejected, if one is. *)
Definition rejected_call (ts : list Task) : list Event :=
  match first_rejected ts with
  | Some t => [TaskCall t (coro_args (target_of t))]
  | None => []
  end.

(** How the activation of the tasks [ts] ends. *)
Definition tasks_outcome (ts : list Task) : Result unit :=
  match first_rejected ts with
  | Some _ => Raise TypeError
  | None => Ok tt
  end.

(** The two events of one task activation: the call, then the
    registration of what it returned. *)
Definition activation (c : Coroutine) : list Event :=
  [TaskCall (coro_task c) (coro_args c); AddFuture c].

(** The instance [o] stands for the registered entry [e]: an entry that
    is already an instance is used as it is. *)
Definition materializes (e : ExtraService) (o : ObjId) : Prop :=
  match e with
  | ServiceInstance o' => o = o'
  | ServiceClass _ => True
  end.

(** The instantiations behind the instances [l] of the entries [es]:
    one for each entry that is a class, none for an entry that is an
    instance already. *)
Fixpoint instantiations (es : list ExtraService) (l : list ObjId)
    : list Event :=
  match es, l with
  | ServiceClass cls :: es', o :: l' =>
      Instantiate cls o :: instantiations es' l'
  | ServiceInstance _ :: es', _ :: l' => instantiations es' l'
  | _, _ => []
  end.

(** The store after the start of each service of [l], in order. *)
Definition started_all (l : list ObjId) (h : gmap nat ServiceObj)
    : gmap nat ServiceObj :=
  foldl (fun h o => alter (with_state Started) o h) h l.

Definition is_startup_finished (e : Event) : bool :=
  match e with
  | AppCall startup_finished => true
  | _ => false
  end.

(** How many events of [l] satisfy [p]. *)
Definition count_events (p : Event -> bool) (l : list Event) : nat :=
  length (List.filter p l).

(** What the sensors of the application are, and which object is its
    monitor. *)
Definition monitoring (w : World) : ObjId * gset nat :=
  (monitor (the_app w), sensors (the_app w)).

(** The computation [m] never changes what [f] observes of the world,
    whether it returns or raises. *)
Definition preserves {A B} (f : World -> B) (m : M A) : Prop :=
  forall w, f (snd (m w)) = f w.

(** The message of the [ImproperlyConfigured] raised by
    [on_first_start]. *)
Definition no_agents : Exn :=
  ImproperlyConfigured "Attempting to start app that has no agents".

(** The objects of an application that server mode starts. *)
Definition server_components (a : App) : list ObjId :=
  (elements ({[monitor a]} ∪ sensors a)
     ++ [producer a; consumer a; _leader_assignor a; _reply_consumer a]
     ++ values (agents a)
     ++ [topics a; tables a; _fetcher a])%list.

(** The five objects client-only mode starts. *)
Definition client_components (a : App) : list ObjId :=
  [producer a; consumer a; _reply_consumer a; topics a; _fetcher a].

(** What client-only mode leaves out. *)
Definition server_only_components (a : App) : list ObjId :=
  (elements ({[monitor a]} ∪ sensors a)
     ++ values (agents a)
     ++ [_leader_assignor a; tables a])%list.

End AppService.

(** ** Concrete applications *)

Module Examples.
Import AppService.

Definition web_example : Web.Web :=
  {| Web.bind := "0.0.0.0"; Web.port := 6066 |}.

Definition fresh_obj (l : Loop) : ServiceObj :=
  {| svc_loop := l; svc_beacon_parent := None; svc_state := Init |}.

(** [async def timer(): ...] *)
Definition timer : Task :=
  {| task_name := "timer"; task_signature := [] |}.

(** [async def on_app(app): ...] *)
Definition on_app : Task :=
  {| task_name := "on_app";
     task_signature :=
       [{| param_kind := PositionalOrKeyword; param_default := false |}] |}.

(** A coroutine function whose one parameter [app] is keyword-only: no
    positional argument can fill it. *)
Definition kwonly : Task :=
  {| task_name := "kwonly";
     task_signature :=
       [{| param_kind := KeywordOnly; param_default := false |}] |}.

(** [async def two(app, other): ...] *)
Definition two : Task :=
  {| task_name := "two";
     task_signature :=
       [{| param_kind := PositionalOrKeyword; param_default := false |};
        {| param_kind := PositionalOrKeyword; param_default := false |}] |}.

(** An application whose monitor (object 1, made by the user on loop 7
    and already among the sensors, next to sensor 9) precedes the
    usual components (objects 2 to 8). *)
Definition example_app (client : bool) (ags : list (string * ObjId))
    : App :=
  {| client_only := client;
     monitor := 1;
     sensors := {[1; 9]};
     agents := ags;
     producer := 2;
     consumer := 3;
     _leader_assignor := 4;
     _reply_consumer := 5;
     topics := 6;
     tables := 7;
     _fetcher := 8;
     _tasks := [timer; on_app];
     _extra_services := [ServiceInstance 11; ServiceClass "Pinger"];
     on_startup_finished := true;
     app_label := "example";
     app_shortlabel := "ex";
     directories_created := false;
     finalized := false |}.

Definition example_heap : gmap nat ServiceObj :=
  list_to_map
    (map (fun o => (o, fresh_obj 7)) [1; 2; 3; 4; 5; 6; 7; 8; 9; 10; 11]).

Definition example_self (client : bool) (ags : list (string * ObjId))
    : Self :=
  {| self_id := 0;
     loop := 1;
     app := example_app client ags;
     _children := [];
     _futures := [];
     _extra_service_instances := None;
     state := Init;
     first_start_done := false |}.

Definition example_world (client : bool) (ags : list (string * ObjId))
    (stopped : bool) : World :=
  {| self := example_self client ags;
     heap := example_heap;
     stopped_during_recovery := stopped;
     trace := [] |}.

End Examples.

(** ** Vocabulary for the rest of the two files *)

Module Observations.
Import AppService.

(** The components server mode starts besides sensors and agents. *)
Definition fixed_components (a : App) : list ObjId :=
  [producer a; consumer a; _leader_assignor a; _reply_consumer a;
   topics a; tables a; _fetcher a].

(** Of the instances [l] of the entries [es], those made from a class. *)
Fixpoint class_instances (es : list ExtraService) (l : list ObjId)
    : list ObjId :=
  match es, l with
  | ServiceClass _ :: es', o :: l' => o :: class_instances es' l'
  | ServiceInstance _ :: es', _ :: l' => class_instances es' l'
  | _, _ => []
  end.

(** A service object on the loop of the service [s], its beacon under
    [s], in lifecycle state [n]. *)
Definition bound_to (s : Self) (n : NodeState) : ServiceObj :=
  {| svc_loop := loop s;
     svc_beacon_parent := Some (self_id s);
     svc_state := n |}.

(** [app._extra_services = es] *)
Definition with_extra_services (es : list ExtraService) (a : App) : App :=
  {| client_only := client_only a; monitor := monitor a;
     sensors := sensors a;
     agents := agents a; producer := producer a; consumer := consumer a;
     _leader_assignor := _leader_assignor a;
     _reply_consumer := _reply_consumer a; topics := topics a;
     tables := tables a; _fetcher := _fetcher a; _tasks := _tasks a;
     _extra_services := es;
     on_startup_finished := on_startup_finished a;
     app_label := app_label a; app_shortlabel := app_shortlabel a;
     directories_created := directories_created a;
     finalized := finalized a |}.

(** The world in which the application has [es] as its registered extra
    services. *)
Definition registered (es : list ExtraService) (w : World) : World :=
  with_self (with_app (with_extra_services es (the_app w)) (self w)) w.

(** [app._tasks = ts] *)
Definition with_tasks (ts : list Task) (a : App) : App :=
  {| client_only := client_only a; monitor := monitor a;
     sensors := sensors a;
     agents := agents a; producer := producer a; consumer := consumer a;
     _leader_assignor := _leader_assignor a;
     _reply_consumer := _reply_consumer a; topics := topics a;
     tables := tables a; _fetcher := _fetcher a; _tasks := ts;
     _extra_services := _extra_services a;
     on_startup_finished := on_startup_finished a;
     app_label := app_label a; app_shortlabel := app_shortlabel a;
     directories_created := directories_created a;
     finalized := finalized a |}.

(** The world in which the application has [ts] as its registered
    tasks. *)
Definition tasked (ts : list Task) (w : World) : World :=
  with_self (with_app (with_tasks ts (the_app w)) (self w)) w.

(** What [on_started] has no business changing: the application object
    and the identity, loop, lifecycle state and first-start flag of the
    service. *)
Definition standing (w : World)
    : App * ObjId * Loop * NodeState * bool :=
  (the_app w, self_id (self w), loop (self w), state (self w),
   first_start_done (self w)).

End Observations.

(** * Properties *)

(** ** The web facade *)

Section WebFacts.
Import Web.

(** A field without an argument is an error; text without a field is
    kept as it is. *)
Lemma format_examples :
  format "{}" [] = None
  /\ format "/" [] = Some "/"
  /\ format "{}:{}" ["a"; "b"] = Some "a:b".
Proof. repeat split. Qed.

(** The template of [url] has one field, filled by its one argument. *)
Lemma format_localhost (s : string) :
  format "http://localhost:{}/" [s] = Some ("http://localhost:" +:+ s +:+ "/").
Proof. reflexivity. Qed.

(** C9, as the code has it: the url is [http://localhost:<port>/], the
    port in decimal; the host is the literal [localhost] whatever the
    bound address is. *)
Theorem url_localhost (w : Web) :
  url w = Some ("http://localhost:" +:+ str (port w) +:+ "/")
  /\ forall b : string, url {| bind := b; port := port w |} = url w.
Proof.
  split.
  - unfold url. apply format_localhost.
  - intros b. unfold url. simpl. reflexivity.
Qed.

(** C9, as it is stated, fails for a facade bound to [0.0.0.0]: the
    url names [localhost], not the bound address. *)
Lemma url_ignores_bind :
  url Examples.web_example = Some "http://localhost:6066/"
  /\ url_spec Examples.web_example = "http://0.0.0.0:6066/"
  /\ url Examples.web_example <> Some (url_spec Examples.web_example).
Proof.
  split; [reflexivity | split; [reflexivity | ]].
  vm_compute. discriminate.
Qed.

End WebFacts.

(** ** The application service *)

Import AppService.
Local Open Scope svc_scope.

(** Unfolds the primitives of the monad and of the collaborators, and
    runs what is straight-line code. *)
Ltac run :=
  unfold events, outcome, after, app_call, _create_directories,
    app_finalize, beacon_reattach, set_loop, sensors_add,
    wait_for_stopped, call_task, add_future, service_start,
    add_runtime_dependency, modify_obj, modify_app, modify_self, emit,
    modify, gets, raise, bnd, ret, the_app in *;
  simpl in *.

(** One step of a sequence whose first computation is known by [H]. *)
Ltac step H := unfold bnd at 1; rewrite H; cbv beta iota.

Section Tools.

Lemma drop_trace {A} (l k : list A) : drop (length l) (l ++ k) = k.
Proof. apply drop_app_length. Qed.

Lemma filter_absent (o : ObjId) (l : list ObjId) :
  o ∉ l -> filter (fun x => x = o) l = [].
Proof.
  induction l as [| x l IH]; intros Hnot; [reflexivity |].
  rewrite filter_cons. destruct (decide (x = o)) as [-> | Hne].
  - exfalso. apply Hnot. left.
  - apply IH. intros Hin. apply Hnot. by right.
Qed.

Lemma occurrences_NoDup (o : ObjId) (l : list ObjId) :
  NoDup l -> o ∈ l -> occurrences o l = 1.
Proof.
  unfold occurrences. induction 1 as [| x l Hx Hl IH]; intros Hin.
  - inversion Hin.
  - rewrite filter_cons. destruct (decide (x = o)) as [-> | Hne].
    + simpl. by rewrite (filter_absent o l Hx).
    + apply IH. apply elem_of_cons in Hin as [-> | Hin]; [done | exact Hin].
Qed.

Lemma occurrences_elements (o : ObjId) (s : gset nat) :
  o ∈ s -> occurrences o (elements s) = 1.
Proof.
  intros Hin. apply occurrences_NoDup.
  - apply NoDup_elements.
  - by apply elem_of_elements.
Qed.

End Tools.

(** *** Which components start: [on_init_dependencies] *)

Section Topology.

(** In client-only mode [on_init_dependencies] has no effect at all. *)
Lemma client_only_pure (w : World) :
  client_only (the_app w) = true ->
  on_init_dependencies w = (Ok (client_components (the_app w)), w).
Proof.
  intros H. unfold on_init_dependencies, _components_client. run.
  by rewrite H.
Qed.

(** C2: in client-only mode the dependencies are exactly producer,
    consumer, reply consumer, topics and fetcher, in that order, and
    nothing else happens; for an application whose components are
    distinct objects, no sensor, agent, leader assignor or table
    manager is among them. *)
Theorem client_only_graph (w : World) :
  client_only (the_app w) = true ->
  outcome on_init_dependencies w
    = Ok [producer (the_app w); consumer (the_app w);
          _reply_consumer (the_app w); topics (the_app w);
          _fetcher (the_app w)]
  /\ after on_init_dependencies w = w
  /\ (NoDup (server_components (the_app w)) ->
      forall o, o ∈ server_only_components (the_app w) ->
                o ∉ client_components (the_app w)).
Proof.
  intros H. unfold outcome, after. rewrite (client_only_pure w H).
  split; [reflexivity | split; [reflexivity | ]].
  unfold server_components, server_only_components, client_components.
  generalize (the_app w). intros a Hnd o Ho Hc.
  apply NoDup_app in Hnd as (_ & Hs & Hnd).
  apply NoDup_app in Hnd as (Hfour & Hc4 & Hnd).
  apply NoDup_app in Hnd as (_ & Hag & Hlast).
  repeat (apply elem_of_app in Ho as [Ho | Ho]).
  - apply (Hs o Ho). set_solver.
  - assert (Hnot : o ∉ [producer a; consumer a; _leader_assignor a;
                        _reply_consumer a]).
    { intros Hin. apply (Hc4 o Hin). set_solver. }
    assert (Hnot' : o ∉ [topics a; tables a; _fetcher a])
      by (apply Hag, Ho).
    set_solver.
  - apply NoDup_cons in Hfour as (Hp & Hfour).
    apply NoDup_cons in Hfour as (Hco & Hfour).
    apply NoDup_cons in Hfour as (Hl & _).
    apply NoDup_cons in Hlast as (Ht & Hlast).
    apply NoDup_cons in Hlast as (Htb & _).
    assert (Hl' : forall x, x ∈ [topics a; tables a; _fetcher a] ->
                            x <> _leader_assignor a).
    { intros x Hx ->. apply (Hc4 (_leader_assignor a)); set_solver. }
    assert (Htb' : forall x, x ∈ [producer a; consumer a;
                                   _reply_consumer a] -> x <> tables a).
    { intros x Hx ->. apply (Hc4 (tables a)); set_solver. }
    set_solver.
Qed.

(** The witness of C2: a client-only application of distinct objects. *)
Lemma client_only_graph_witness :
  let w := Examples.example_world true [("agent", 10)] false in
  outcome on_init_dependencies w = Ok [2; 3; 5; 6; 8]
  /\ after on_init_dependencies w = w
  /\ forall o, o ∈ [9; 1; 10; 4; 7] -> o ∉ [2; 3; 5; 6; 8].
Proof.
  intros w.
  destruct (client_only_graph w eq_refl) as (Hout & Haft & Hex).
  split; [exact Hout | split; [exact Haft | ]].
  intros o Ho. apply Hex; [| exact Ho].
  vm_compute. repeat constructor; set_solver.
Defined.

(** C3: in server mode the dependencies are, in order: the sensors
    (the monitor among them), producer, consumer, leader assignor,
    reply consumer, the agents, topics, tables, fetcher. *)
Theorem server_graph (w : World) :
  client_only (the_app w) = false ->
  outcome on_init_dependencies w
    = Ok (elements (sensors (the_app (after on_init_dependencies w)))
            ++ [producer (the_app w); consumer (the_app w);
                _leader_assignor (the_app w); _reply_consumer (the_app w)]
            ++ values (agents (the_app w))
            ++ [topics (the_app w); tables (the_app w);
                _fetcher (the_app w)])%list
  /\ sensors (the_app (after on_init_dependencies w))
     = {[monitor (the_app w)]} ∪ sensors (the_app w).
Proof.
  intros H. unfold on_init_dependencies, _components_server. run.
  rewrite H. simpl. split; reflexivity.
Qed.

Lemma server_graph_witness :
  let w := Examples.example_world false [("agent", 10)] false in
  outcome on_init_dependencies w = Ok [9; 1; 2; 3; 4; 5; 10; 6; 7; 8].
Proof.
  intros w. destruct (server_graph w eq_refl) as (Hout & _).
  rewrite Hout. vm_compute. reflexivity.
Defined.

End Topology.

(** *** The first start: [on_first_start] and [start] *)

Section FirstStart.

(** With agents registered, [on_first_start] creates the directories
    and hands over to the hook of the application. *)
Lemma on_first_start_with_agents (w : World) :
  agents (the_app w) <> [] ->
  outcome on_first_start w = Ok tt
  /\ events on_first_start w
     = [AppCall create_directories; AppCall app_on_first_start].
Proof.
  intros H. unfold on_first_start. run.
  destruct (agents (app (self w))) as [| ag ags]; [done |].
  simpl. split; [reflexivity |].
  by rewrite <- app_assoc, drop_trace.
Qed.

(** C10: without agents, [on_first_start] has already called
    [_create_directories] when it raises [ImproperlyConfigured]: the
    directories are created, that call is the only one made (the
    first-start hook of the application is not reached), and nothing
    else of the application changes. *)
Theorem on_first_start_creates_directories_then_raises (w : World) :
  agents (the_app w) = [] ->
  outcome on_first_start w = Raise no_agents
  /\ events on_first_start w = [AppCall create_directories]
  /\ directories_created (the_app (after on_first_start w)) = true
  /\ the_app (after on_first_start w)
     = with_directories_created true (the_app w).
Proof.
  intros H. unfold on_first_start. run. rewrite H. simpl.
  repeat split. apply drop_trace.
Qed.

Lemma on_first_start_creates_directories_then_raises_witness :
  let w := Examples.example_world false [] false in
  directories_created (the_app w) = false
  /\ outcome on_first_start w = Raise no_agents
  /\ events on_first_start w = [AppCall create_directories]
  /\ directories_created (the_app (after on_first_start w)) = true.
Proof.
  intros w.
  destruct (on_first_start_creates_directories_then_raises w eq_refl)
    as (Hout & Hev & Hdir & _).
  split; [reflexivity | split; [exact Hout | split; [exact Hev | exact Hdir]]].
Defined.

(** C1: the first [start()] of a server-mode application without
    agents ends in [ImproperlyConfigured], handed to the caller; the
    only call made is [_create_directories]: no child is started, the
    lifecycle state of every object is what it was, and the service
    itself is left in [Starting]. *)
Theorem start_without_agents_fails (w : World) :
  agents (the_app w) = [] ->
  client_only (the_app w) = false ->
  first_start_done (self w) = false ->
  outcome start w = Raise no_agents
  /\ events start w = [AppCall create_directories]
  /\ Forall (fun e => is_service_start e = false) (events start w)
  /\ (forall o, svc_state <$> heap (after start w) !! o
                = svc_state <$> heap w !! o)
  /\ state (self (after start w)) = Starting.
Proof.
  intros Hag Hmode Hfirst.
  unfold start, on_first_start, on_init_dependencies, _components_server.
  run. rewrite Hfirst. simpl. rewrite Hmode. simpl. rewrite Hag. simpl.
  rewrite drop_trace.
  split; [reflexivity | split; [reflexivity | split]].
  - by repeat constructor.
  - split; [| reflexivity]. intros o.
    destruct (decide (o = monitor (app (self w)))) as [-> | Hne].
    + rewrite !lookup_alter_eq.
      by destruct (heap w !! monitor (app (self w))).
    + by rewrite !lookup_alter_ne.
Qed.

Lemma start_without_agents_fails_witness :
  let w := Examples.example_world false [] false in
  outcome start w = Raise no_agents
  /\ events start w = [AppCall create_directories]
  /\ (forall o, svc_state <$> heap (after start w) !! o
                = svc_state <$> heap w !! o)
  /\ state (self (after start w)) = Starting.
Proof.
  intros w.
  destruct (start_without_agents_fails w eq_refl eq_refl eq_refl)
    as (Hout & Hev & _ & Hheap & Hst).
  exact (conj Hout (conj Hev (conj Hheap Hst))).
Defined.

(** The agent check does not look at the mode: a client-only
    application without agents fails in the same way. *)
Lemma start_without_agents_fails_client_only (w : World) :
  agents (the_app w) = [] ->
  client_only (the_app w) = true ->
  first_start_done (self w) = false ->
  outcome start w = Raise no_agents.
Proof.
  intros Hag Hmode Hfirst.
  unfold start, on_first_start, on_init_dependencies, _components_client.
  run. rewrite Hfirst. simpl. rewrite Hmode. simpl. by rewrite Hag.
Qed.

End FirstStart.

(** *** After the start: [on_started] *)

Section Started.

(** C5: when the wait on the recovery barrier ends because the service
    was stopped, [on_started] returns at once: the world is what it
    was but for the record of the wait, so no task is called, no
    future added, no service instantiated or started, and neither
    [on_startup_finished] nor the [on_started] hook of the application
    is called. *)
Theorem on_started_stopped_skips (w : World) :
  stopped_during_recovery w = true ->
  on_started w = (Ok tt, with_trace (trace w ++ [WaitForStopped true]) w)
  /\ events on_started w = [WaitForStopped true]
  /\ self (after on_started w) = self w
  /\ heap (after on_started w) = heap w.
Proof.
  intros H. unfold on_started. run. rewrite H. simpl.
  repeat split. apply drop_trace.
Qed.

Lemma on_started_stopped_skips_witness :
  let w := Examples.example_world false [("agent", 10)] true in
  events on_started w = [WaitForStopped true]
  /\ _futures (self (after on_started w)) = []
  /\ _extra_service_instances (self (after on_started w)) = None
  /\ _children (self (after on_started w)) = [].
Proof.
  intros w.
  destruct (on_started_stopped_skips w eq_refl) as (_ & Hev & Hself & _).
  split; [exact Hev |]. rewrite Hself. repeat split.
Defined.

End Started.

(** *** Extra tasks and extra services *)

Section Activation.

Lemma with_nothing (w : World) :
  with_self (with_futures (_futures (self w) ++ []) (self w))
    (with_trace (trace w ++ []) w) = w.
Proof.
  destruct w as [[] h b t]. unfold with_self, with_futures, with_trace.
  simpl. by rewrite !app_nil_r.
Qed.

(** One activation: the call is made; it gives its awaitable if the
    task accepts it, and raises [TypeError] if not. *)
Lemma task_call (t : Task) (w : World) :
  (if negb (task_parameters t =? 0)%nat
   then call_task t [TheApp] else call_task t []) w
  = (if accepts_call t then Ok (target_of t) else Raise TypeError,
     with_trace (trace w ++ [TaskCall t (coro_args (target_of t))]) w).
Proof.
  unfold accepts_call, target_of, call_task. simpl.
  destruct (task_parameters t =? 0)%nat; simpl; run;
    by destruct (binds (task_signature t) _).
Qed.

(** The loop of [on_started_init_extra_tasks], task by task: it goes on
    as long as the calls are accepted and ends with the first that is
    not. *)
Lemma extra_tasks_loop (tasks : list Task) (w : World) :
  for_each tasks (fun task =>
    target <- (if negb (task_parameters task =? 0)%nat
               then call_task task [TheApp]
               else call_task task []) ;;
    add_future target) w
  = (tasks_outcome tasks,
     with_self
       (with_futures
          (_futures (self w) ++ map target_of (accepted_prefix tasks))
          (self w))
       (with_trace
          (trace w
             ++ concat (map activation (map target_of (accepted_prefix tasks)))
             ++ rejected_call tasks)
          w)).
Proof.
  revert w. induction tasks as [| t tasks IH]; intros w.
  - simpl. unfold ret, tasks_outcome, rejected_call. simpl.
    by rewrite with_nothing.
  - cbn [for_each]. unfold bnd at 1. unfold bnd at 1. rewrite task_call.
    unfold tasks_outcome, rejected_call in *. cbn [accepted_prefix first_rejected].
    destruct (accepts_call t) eqn:Hacc.
    + unfold add_future. run. rewrite IH.
      f_equal. destruct w as [[] h b tr].
      unfold with_self, with_futures, with_trace. simpl.
      by rewrite <- !app_assoc.
    + f_equal. destruct w as [[] h b tr].
      unfold with_self, with_futures, with_trace. simpl.
      by rewrite !app_nil_r.
Qed.

Lemma accepted_prefix_all (tasks : list Task) :
  Forall (fun t => accepts_call t = true) tasks ->
  accepted_prefix tasks = tasks /\ first_rejected tasks = None.
Proof.
  induction 1 as [| t tasks Ht _ [IH1 IH2]]; [done |].
  simpl. rewrite Ht. by rewrite IH1, IH2.
Qed.

Lemma target_of_as_declared (t : Task) : invoked_as_declared t (target_of t).
Proof.
  unfold invoked_as_declared, target_of. simpl.
  split; [reflexivity | split]; intros ->; reflexivity.
Qed.

(** [on_started_init_extra_tasks] on any tasks. *)
Lemma on_started_init_extra_tasks_stops (w : World) :
  on_started_init_extra_tasks w
  = (tasks_outcome (_tasks (the_app w)),
     with_self
       (with_futures
          (_futures (self w)
             ++ map target_of (accepted_prefix (_tasks (the_app w))))
          (self w))
       (with_trace
          (trace w
             ++ concat (map activation
                          (map target_of
                             (accepted_prefix (_tasks (the_app w)))))
             ++ rejected_call (_tasks (the_app w)))
          w)).
Proof.
  unfold on_started_init_extra_tasks. unfold bnd at 1, gets at 1.
  apply extra_tasks_loop.
Qed.

(** [on_started_init_extra_tasks] on tasks that all accept their call. *)
Lemma on_started_init_extra_tasks_runs (w : World) :
  Forall (fun t => accepts_call t = true) (_tasks (the_app w)) ->
  on_started_init_extra_tasks w
  = (Ok tt,
     with_self
       (with_futures
          (_futures (self w) ++ map target_of (_tasks (the_app w)))
          (self w))
       (with_trace
          (trace w
             ++ concat (map activation (map target_of (_tasks (the_app w)))))
          w)).
Proof.
  intros Hall. rewrite on_started_init_extra_tasks_stops.
  destruct (accepted_prefix_all _ Hall) as [Hp Hr].
  unfold tasks_outcome, rejected_call. rewrite Hp, Hr.
  by rewrite app_nil_r.
Qed.

(** C7: when every registered task accepts the call made for it,
    [on_started_init_extra_tasks] returns and calls every task once, in
    order: a task that declares no parameter with no argument, a task
    that declares one with the application; what each call returns is
    added once to the futures of the service, and nothing else is
    added. *)
Theorem extra_tasks_activated (w : World) :
  Forall (fun t => accepts_call t = true) (_tasks (the_app w)) ->
  outcome on_started_init_extra_tasks w = Ok tt
  /\ exists targets : list Coroutine,
       Forall2 invoked_as_declared (_tasks (the_app w)) targets
       /\ _futures (self (after on_started_init_extra_tasks w))
          = (_futures (self w) ++ targets)%list
       /\ events on_started_init_extra_tasks w
          = concat (map activation targets).
Proof.
  intros Hall. unfold events, outcome, after.
  rewrite (on_started_init_extra_tasks_runs w Hall).
  simpl. split; [reflexivity |].
  exists (map target_of (_tasks (the_app w))). split; [| split].
  - apply Forall2_fmap_r, Forall_Forall2_diag, Forall_forall.
    intros t _. apply target_of_as_declared.
  - reflexivity.
  - apply drop_trace.
Qed.

Lemma extra_tasks_activated_witness :
  let w := Examples.example_world false [("agent", 10)] false in
  outcome on_started_init_extra_tasks w = Ok tt
  /\ _futures (self (after on_started_init_extra_tasks w))
     = [target_of Examples.timer; target_of Examples.on_app]
  /\ events on_started_init_extra_tasks w
     = [TaskCall Examples.timer [];
        AddFuture (target_of Examples.timer);
        TaskCall Examples.on_app [TheApp];
        AddFuture (target_of Examples.on_app)].
Proof.
  intros w.
  assert (Hall : Forall (fun t => accepts_call t = true) (_tasks (the_app w)))
    by (repeat constructor).
  destruct (extra_tasks_activated w Hall) as (Hout & _).
  split; [exact Hout | split; reflexivity].
Defined.

(** The scenario of the specification: a task without parameter and a
    task that takes the app. *)
Example two_tasks_scenario :
  let w := Examples.example_world false [("agent", 10)] false in
  events on_started_init_extra_tasks w
  = [TaskCall Examples.timer []; 
     AddFuture {| coro_task := Examples.timer; coro_args := [] |};
     TaskCall Examples.on_app [TheApp];
     AddFuture {| coro_task := Examples.on_app; coro_args := [TheApp] |}]
  /\ _futures (self (after on_started_init_extra_tasks w))
     = [{| coro_task := Examples.timer; coro_args := [] |};
        {| coro_task := Examples.on_app; coro_args := [TheApp] |}].
Proof. split; reflexivity. Qed.

(** [_prepare_subservice] on a class: a fresh object on the loop of
    the service, its beacon under the service. *)
Lemma prepare_class (cls : string) (w : World) :
  _prepare_subservice (ServiceClass cls) w
  = (Ok (fresh ({[self_id (self w)]} ∪ dom (heap w))),
     with_trace
       (trace w
          ++ [Instantiate cls (fresh ({[self_id (self w)]} ∪ dom (heap w)))])
       (with_heap
          (<[fresh ({[self_id (self w)]} ∪ dom (heap w)) :=
               {| svc_loop := loop (self w);
                  svc_beacon_parent := Some (self_id (self w));
                  svc_state := Init |}]> (heap w))
          w)).
Proof. reflexivity. Qed.

Lemma prepare_all (es : list ExtraService) (w : World) :
  exists (l : list ObjId) (w' : World) (evs : list Event),
    comprehension _prepare_subservice es w = (Ok l, w')
    /\ self w' = self w
    /\ stopped_during_recovery w' = stopped_during_recovery w
    /\ trace w' = (trace w ++ evs)%list
    /\ evs = instantiations es l
    /\ Forall2 materializes es l.
Proof.
  revert w. induction es as [| e es IH]; intros w.
  - exists [], w, []. simpl. rewrite app_nil_r. by repeat split.
  - simpl. unfold bnd at 1. destruct e as [o | cls].
    + simpl. unfold ret at 1.
      destruct (IH w) as (l & w' & evs & Heq & Hs & Hb & Ht & Hev & Hm).
      exists (o :: l), w', evs. unfold bnd. rewrite Heq. unfold ret.
      repeat split; try done. by constructor.
    + rewrite prepare_class. cbv beta iota.
      match goal with
      | |- context [bnd _ _ ?w1] =>
          destruct (IH w1) as (l & w' & evs & Heq & Hs & Hb & Ht & Hev & Hm)
      end.
      unfold bnd. rewrite Heq. unfold ret. simpl in *.
      eexists (_ :: l), w', (_ :: evs).
      split; [reflexivity |]. repeat split; try done.
      * rewrite Ht. by rewrite <- app_assoc.
      * simpl. by rewrite Hev.
      * by constructor.
Qed.

Lemma with_no_child (w : World) :
  with_self (with_children (_children (self w) ++ []) (self w))
    (with_heap (heap w) (with_trace (trace w ++ []) w)) = w.
Proof.
  destruct w as [[] h b t].
  unfold with_self, with_children, with_heap, with_trace.
  simpl. by rewrite !app_nil_r.
Qed.

Lemma start_all (l : list ObjId) (w : World) :
  for_each l add_runtime_dependency w
  = (Ok tt,
     with_self (with_children (_children (self w) ++ l) (self w))
       (with_heap (started_all l (heap w))
          (with_trace (trace w ++ map ServiceStart l) w))).
Proof.
  revert w. induction l as [| o l IH]; intros w.
  - simpl. unfold ret. by rewrite with_no_child.
  - simpl. unfold bnd at 1. unfold add_runtime_dependency at 1. run.
    rewrite IH. f_equal. destruct w as [[] h b tr].
    unfold with_self, with_children, with_heap, with_trace. simpl.
    by rewrite <- !app_assoc.
Qed.

Lemma extra_services_first (w : World) :
  _extra_service_instances (self w) = None ->
  exists (l : list ObjId) (w1 : World) (evs : list Event),
    comprehension _prepare_subservice (_extra_services (the_app w)) w
    = (Ok l, w1)
    /\ self w1 = self w
    /\ stopped_during_recovery w1 = stopped_during_recovery w
    /\ trace w1 = (trace w ++ evs)%list
    /\ evs = instantiations (_extra_services (the_app w)) l
    /\ Forall2 materializes (_extra_services (the_app w)) l
    /\ on_started_init_extra_services w
       = (Ok tt,
          with_self
            (with_children (_children (self w) ++ l)
               (with_extra_service_instances (Some l) (self w)))
            (with_heap (started_all l (heap w1))
               (with_trace (trace w ++ evs ++ map ServiceStart l) w1))).
Proof.
  intros Hnone.
  destruct (prepare_all (_extra_services (the_app w)) w)
    as (l & w1 & evs & Heq & Hs & Hb & Ht & Hev & Hm).
  exists l, w1, evs. repeat (split; [assumption |]).
  unfold on_started_init_extra_services.
  unfold bnd at 1, gets at 1. rewrite Hnone.
  unfold bnd at 1, gets at 1. unfold bnd at 1. rewrite Heq.
  unfold bnd at 1, modify_self at 1, modify at 1.
  rewrite start_all. f_equal.
  destruct w1 as [s1 h1 b1 t1]. simpl in *. subst.
  unfold with_self, with_children, with_heap, with_trace,
    with_extra_service_instances. simpl.
  by rewrite <- app_assoc.
Qed.

Lemma extra_services_again (w : World) :
  _extra_service_instances (self w) <> None ->
  on_started_init_extra_services w = (Ok tt, w).
Proof.
  intros Hsome. unfold on_started_init_extra_services.
  unfold bnd at 1, gets at 1.
  by destruct (_extra_service_instances (self w)).
Qed.

Lemma instantiations_are_service_events (es : list ExtraService)
    (l : list ObjId) :
  Forall (fun e => is_service_event e = true) (instantiations es l).
Proof.
  revert l. induction es as [| [o | cls] es IH]; intros [| o' l]; simpl;
    try constructor; auto.
Qed.

(** Whether it materializes or not, the activation of the extra
    services returns, leaves the application and the futures alone,
    and adds events of services only. *)
Lemma extra_services_any (w : World) :
  exists (w' : World) (evs : list Event),
    on_started_init_extra_services w = (Ok tt, w')
    /\ the_app w' = the_app w
    /\ _futures (self w') = _futures (self w)
    /\ trace w' = (trace w ++ evs)%list
    /\ Forall (fun e => is_service_event e = true) evs.
Proof.
  destruct (_extra_service_instances (self w)) as [l |] eqn:Hinst.
  - exists w, []. rewrite extra_services_again by congruence.
    rewrite app_nil_r. by repeat split.
  - destruct (extra_services_first w Hinst)
      as (l & w1 & evs & _ & Hs & _ & Ht & Hev & _ & Heq).
    eexists _, (evs ++ map ServiceStart l)%list.
    split; [exact Heq |]. unfold the_app. simpl.
    repeat split.
    apply Forall_app. split.
    + subst evs. apply instantiations_are_service_events.
    + apply Forall_fmap, Forall_forall. by intros o _.
Qed.



End Activation.

(** *** After the start, recovery completed: the order of [on_started] *)

Section StartedNormally.

Lemma count_events_app (p : Event -> bool) (l k : list Event) :
  count_events p (l ++ k) = count_events p l + count_events p k.
Proof. unfold count_events. by rewrite List.filter_app, length_app. Qed.

Lemma count_events_none (p : Event -> bool) (l : list Event) :
  Forall (fun e => p e = false) l -> count_events p l = 0.
Proof.
  unfold count_events. induction 1 as [| e l He _ IH]; [reflexivity |].
  simpl. by rewrite He.
Qed.

Lemma activations_are_task_events (cs : list Coroutine) :
  Forall (fun e => is_task_event e = true) (concat (map activation cs)).
Proof.
  induction cs as [| c cs IH]; simpl; [constructor |].
  by repeat constructor.
Qed.

Lemma wait_resolved (w : World) :
  wait_for_stopped w
  = (Ok (stopped_during_recovery w),
     with_trace
       (trace w ++ [WaitForStopped (stopped_during_recovery w)]) w).
Proof. reflexivity. Qed.

(** C8: when recovery completes before any stop and every registered
    task accepts the call made for it, [on_started] returns, and what
    it does is, in this order: the wait, the activation of
    the extra tasks (each call followed by its registration), the
    activation of the extra services, the call of
    [on_startup_finished] if the application has one, the [on_started]
    hook of the application.  [on_startup_finished] is called once if
    present and never otherwise. *)
Theorem on_started_sequence (w : World) :
  stopped_during_recovery w = false ->
  Forall (fun t => accepts_call t = true) (_tasks (the_app w)) ->
  outcome on_started w = Ok tt
  /\ (exists task_evs svc_evs : list Event,
        events on_started w
        = ([WaitForStopped false]
             ++ task_evs
             ++ svc_evs
             ++ (if on_startup_finished (the_app w)
                 then [AppCall startup_finished] else [])
             ++ [AppCall app_on_started])%list
        /\ task_evs
           = events on_started_init_extra_tasks (after wait_for_stopped w)
        /\ svc_evs
           = events on_started_init_extra_services
               (after on_started_init_extra_tasks
                  (after wait_for_stopped w))
        /\ Forall (fun e => is_task_event e = true) task_evs
        /\ Forall (fun e => is_service_event e = true) svc_evs)
  /\ count_events is_startup_finished (events on_started w)
     = (if on_startup_finished (the_app w) then 1 else 0).
Proof.
  intros Hnormal Hall.
  pose proof (wait_resolved w) as Hwait. rewrite Hnormal in Hwait.
  set (w1 := with_trace (trace w ++ [WaitForStopped false]) w) in *.
  pose proof (on_started_init_extra_tasks_runs w1 Hall) as Htasks.
  set (tevs := concat (map activation (map target_of (_tasks (the_app w1)))))
    in *.
  set (w2 := with_self _ _) in Htasks.
  destruct (extra_services_any w2) as (w3 & sevs & Hsvc & Happ & _ & Htr & Hsev).
  assert (Hrun : exists w4,
    on_started w = (Ok tt, w4)
    /\ trace w4
       = (trace w ++ [WaitForStopped false] ++ tevs ++ sevs
            ++ (if on_startup_finished (the_app w)
                then [AppCall startup_finished] else [])
            ++ [AppCall app_on_started])%list).
  { unfold on_started. step Hwait. cbn [negb].
    step Htasks. step Hsvc.
    unfold bnd at 1, gets at 1. rewrite Happ.
    change (the_app w2) with (the_app w).
    destruct (on_startup_finished (the_app w)); run;
      eexists; (split; [reflexivity |]); simpl; rewrite Htr; simpl;
      by rewrite <- !app_assoc. }
  destruct Hrun as (w4 & Hrun & Htrace).
  assert (Hev : events on_started w
    = ([WaitForStopped false] ++ tevs ++ sevs
         ++ (if on_startup_finished (the_app w)
             then [AppCall startup_finished] else [])
         ++ [AppCall app_on_started])%list).
  { unfold events, after. rewrite Hrun. simpl snd. rewrite Htrace.
    apply drop_trace. }
  assert (Htev : Forall (fun e => is_task_event e = true) tevs)
    by apply activations_are_task_events.
  split; [unfold outcome; by rewrite Hrun |]. split.
  - exists tevs, sevs. split; [exact Hev |].
    assert (Haft1 : after wait_for_stopped w = w1)
      by (unfold after; by rewrite Hwait).
    assert (Haft2 : after on_started_init_extra_tasks w1 = w2)
      by (unfold after; by rewrite Htasks).
    rewrite Haft1, Haft2. split; [| split; [| by split]].
    + unfold events. rewrite Haft2. simpl. by rewrite drop_trace.
    + unfold events, after. rewrite Hsvc. simpl snd. rewrite Htr.
      by rewrite drop_trace.
  - rewrite Hev. rewrite !count_events_app.
    rewrite (count_events_none _ tevs), (count_events_none _ sevs).
    + by destruct (on_startup_finished (the_app w)).
    + eapply Forall_impl; [exact Hsev |]. by intros [].
    + eapply Forall_impl; [exact Htev |]. by intros [].
Qed.

Lemma on_started_sequence_witness :
  let w := Examples.example_world false [("agent", 10)] false in
  outcome on_started w = Ok tt
  /\ events on_started w
     = [WaitForStopped false;
        TaskCall Examples.timer [];
        AddFuture (target_of Examples.timer);
        TaskCall Examples.on_app [TheApp];
        AddFuture (target_of Examples.on_app);
        Instantiate "Pinger" 12;
        ServiceStart 11;
        ServiceStart 12;
        AppCall startup_finished;
        AppCall app_on_started]
  /\ count_events is_startup_finished (events on_started w) = 1.
Proof.
  intros w.
  assert (Hall : Forall (fun t => accepts_call t = true) (_tasks (the_app w)))
    by (repeat constructor).
  destruct (on_started_sequence w eq_refl Hall) as (Hout & _ & Hcount).
  split; [exact Hout | split; [vm_compute; reflexivity | exact Hcount]].
Defined.

(** The scenario of the specification: server mode, one agent,
    recovery completes.  The service ends [Started]; the children
    start in the declared order after the first-start hook and before
    the start hook. *)
Example one_agent_scenario :
  let w := Examples.example_world false [("agent", 10)] false in
  outcome start w = Ok tt
  /\ state (self (after start w)) = Started
  /\ events start w
     = [AppCall create_directories;
        AppCall app_on_first_start;
        ServiceStart 9; ServiceStart 1; ServiceStart 2; ServiceStart 3;
        ServiceStart 4; ServiceStart 5; ServiceStart 10; ServiceStart 6;
        ServiceStart 7; ServiceStart 8;
        AppCall finalize;
        AppCall app_on_start;
        WaitForStopped false;
        TaskCall Examples.timer [];
        AddFuture (target_of Examples.timer);
        TaskCall Examples.on_app [TheApp];
        AddFuture (target_of Examples.on_app);
        Instantiate "Pinger" 12;
        ServiceStart 11;
        ServiceStart 12;
        AppCall startup_finished;
        AppCall app_on_started].
Proof. vm_compute. repeat split. Qed.

End StartedNormally.

(** *** The monitor among the sensors *)

Section Monitor.

Context {B : Type} (f : World -> B).

Lemma preserves_ret {A} (a : A) : preserves f (ret a).
Proof. by intros w. Qed.

Lemma preserves_raise {A} (e : Exn) : preserves f (raise (A := A) e).
Proof. by intros w. Qed.

Lemma preserves_gets {A} (g : World -> A) : preserves f (gets g).
Proof. by intros w. Qed.

Lemma preserves_modify (g : World -> World) :
  (forall w, f (g w) = f w) -> preserves f (modify g).
Proof. intros H w. apply H. Qed.

(** What follows a computation does not show in [f] if it preserves
    [f]. *)
Lemma preserved_after {A C} (m : M A) (k : A -> M C) (w : World) :
  (forall a, preserves f (k a)) ->
  f (snd (bnd m k w)) = f (snd (m w)).
Proof.
  intros Hk. unfold bnd. destruct (m w) as [[a | e] w']; [| reflexivity].
  apply Hk.
Qed.

Lemma preserves_bnd {A C} (m : M A) (k : A -> M C) :
  preserves f m -> (forall a, preserves f (k a)) -> preserves f (bnd m k).
Proof. intros Hm Hk w. rewrite preserved_after by exact Hk. apply Hm. Qed.

Lemma preserves_for_each {A} (l : list A) (body : A -> M unit) :
  (forall x, preserves f (body x)) -> preserves f (for_each l body).
Proof.
  intros Hbody. induction l as [| x l IH]; simpl.
  - apply preserves_ret.
  - apply preserves_bnd; [apply Hbody | intros _; exact IH].
Qed.

Lemma preserves_comprehension {A C} (g : A -> M C) (l : list A) :
  (forall x, preserves f (g x)) -> preserves f (comprehension g l).
Proof.
  intros Hg. induction l as [| x l IH]; simpl.
  - apply preserves_ret.
  - apply preserves_bnd; [apply Hg | intros y].
    apply preserves_bnd; [exact IH | intros ys; apply preserves_ret].
Qed.

Lemma preserves_if {A} (b : bool) (m1 m2 : M A) :
  preserves f m1 -> preserves f m2 -> preserves f (if b then m1 else m2).
Proof. by destruct b. Qed.

End Monitor.

(** Proves [preserves monitoring m] for a method [m] after unfolding it
    down to the primitives of the monad. *)
Ltac frame :=
  unfold on_started, on_started_init_extra_tasks,
    on_started_init_extra_services, _prepare_subservice, instantiate,
    on_start, on_first_start, add_runtime_dependency, service_start,
    add_future, call_task, wait_for_stopped, app_finalize,
    _create_directories, app_call, emit, modify_obj, modify_app,
    modify_self;
  repeat first
    [ apply preserves_bnd | apply preserves_for_each
    | apply preserves_comprehension | apply preserves_ret
    | apply preserves_raise | apply preserves_gets
    | apply preserves_modify; intros; reflexivity
    | apply preserves_if
    | match goal with
      | |- preserves _ (match ?x with _ => _ end) => destruct x
      end
    | intro ].

Section MonitorOnce.

Lemma on_first_start_keeps_monitoring : preserves monitoring on_first_start.
Proof. frame. Qed.

Lemma start_children_keep_monitoring (l : list ObjId) :
  preserves monitoring (for_each l service_start).
Proof. frame. Qed.

Lemma on_start_keeps_monitoring : preserves monitoring on_start.
Proof. frame. Qed.

Lemma on_started_keeps_monitoring : preserves monitoring on_started.
Proof. frame. Qed.


(** In server mode, the first start leaves the monitor and the sensors
    as the resolution of the dependencies made them. *)
Lemma start_monitoring (w : World) :
  client_only (the_app w) = false ->
  first_start_done (self w) = false ->
  monitoring (after start w)
  = (monitor (the_app w), {[monitor (the_app w)]} ∪ sensors (the_app w)).
Proof.
  intros Hmode Hfirst. unfold after, start.
  unfold bnd at 1, modify_self at 1, modify at 1.
  unfold bnd at 1, gets at 1. simpl first_start_done. rewrite Hfirst.
  rewrite preserved_after.
  2:{ intros _. frame. }
  rewrite preserved_after.
  2:{ intros deps. frame. }
  unfold on_init_dependencies, _components_server. run.
  rewrite Hmode. reflexivity.
Qed.

(** C4: in server mode, resolving the dependencies puts the beacon of
    the monitor under the service, sets the loop of the monitor to the
    loop of the service (no other object is touched) and adds the
    monitor to the sensors of the application; after the first
    [start()], however it ends, the monitor is among the sensors, and
    once, whether or not it was among them before. *)
Theorem monitor_added_once (w : World) :
  client_only (the_app w) = false ->
  (forall obj : ServiceObj,
     heap w !! monitor (the_app w) = Some obj ->
     heap (after on_init_dependencies w) !! monitor (the_app w)
     = Some {| svc_loop := loop (self w);
               svc_beacon_parent := Some (self_id (self w));
               svc_state := svc_state obj |})
  /\ (forall o : ObjId,
        o <> monitor (the_app w) ->
        heap (after on_init_dependencies w) !! o = heap w !! o)
  /\ sensors (the_app (after on_init_dependencies w))
     = {[monitor (the_app w)]} ∪ sensors (the_app w)
  /\ (first_start_done (self w) = false ->
      monitor (the_app (after start w)) = monitor (the_app w)
      /\ sensors (the_app (after start w))
         = {[monitor (the_app w)]} ∪ sensors (the_app w)
      /\ occurrences (monitor (the_app w))
           (elements (sensors (the_app (after start w)))) = 1).
Proof.
  intros Hmode. split; [| split; [| split]].
  - intros obj Hobj. unfold on_init_dependencies, _components_server.
    run. rewrite Hmode. simpl.
    by rewrite !lookup_alter_eq, Hobj.
  - intros o Hne. unfold on_init_dependencies, _components_server.
    run. rewrite Hmode. simpl. by rewrite !lookup_alter_ne.
  - unfold on_init_dependencies, _components_server. run.
    by rewrite Hmode.
  - intros Hfirst.
    pose proof (start_monitoring w Hmode Hfirst) as Hmon.
    unfold monitoring in Hmon. injection Hmon as Hm Hs.
    split; [exact Hm | split; [exact Hs |]].
    rewrite Hs. apply occurrences_elements. set_solver.
Qed.

Lemma monitor_added_once_witness :
  let w := Examples.example_world false [("agent", 10)] false in
  monitor (the_app w) ∈ sensors (the_app w)
  /\ heap (after on_init_dependencies w) !! 1
     = Some {| svc_loop := 1; svc_beacon_parent := Some 0;
               svc_state := Init |}
  /\ occurrences 1 (elements (sensors (the_app (after start w)))) = 1.
Proof.
  intros w.
  destruct (monitor_added_once w eq_refl) as (Hobj & _ & _ & Hstart).
  destruct (Hstart eq_refl) as (_ & _ & Honce).
  split; [| split; [| exact Honce]].
  - vm_compute. set_solver.
  - apply (Hobj (Examples.fresh_obj 7)). reflexivity.
Defined.

End MonitorOnce.


(** * Beyond the claims *)

Import Observations.

(** ** The url of the web facade *)

Section WebMore.
Import Web.

Lemma append_slash_inj (s1 s2 : string) :
  s1 +:+ "/" = s2 +:+ "/" -> s1 = s2.
Proof.
  revert s2. induction s1 as [| c1 s1 IH]; intros [| c2 s2] H; simpl in H.
  - reflexivity.
  - injection H as _ H. by destruct s2.
  - injection H as _ H. by destruct s1.
  - injection H as -> H. f_equal. by apply IH.
Qed.

(** X11: Two facades have the same url exactly when they have the same
    port. *)
Theorem url_same_iff_port_same (w1 w2 : Web) :
  url w1 = url w2 <-> port w1 = port w2.
Proof.
  unfold url. rewrite !format_localhost. split.
  - intros H. injection H as H. apply append_slash_inj in H.
    by apply (inj pretty).
  - by intros ->.
Qed.

End WebMore.

(** ** [on_first_start], whatever the agents *)

Section FirstStartMore.

(** X1: [on_first_start] raises exactly when the application has no agent,
    in either mode; it has created the directories by then in both
    cases, and the first-start hook of the application is called
    exactly when there is an agent. *)
Theorem on_first_start_raises_iff_no_agents (w : World) :
  (outcome on_first_start w = Raise no_agents <-> agents (the_app w) = [])
  /\ (outcome on_first_start w = Ok tt <-> agents (the_app w) <> [])
  /\ directories_created (the_app (after on_first_start w)) = true
  /\ events on_first_start w
     = AppCall create_directories
         :: match agents (the_app w) with
            | [] => []
            | _ :: _ => [AppCall app_on_first_start]
            end.
Proof.
  unfold on_first_start. run.
  destruct (agents (app (self w))) as [| ag ags]; simpl.
  - rewrite drop_trace. by repeat split.
  - rewrite <- app_assoc, drop_trace. by repeat split.
Qed.

End FirstStartMore.

(** ** More on the dependencies *)

Section TopologyMore.

Lemma rebind_twice (l : Loop) (p o : ObjId) (h : gmap nat ServiceObj) :
  alter (with_loop l) o
    (alter (with_beacon_parent p) o
       (alter (with_loop l) o (alter (with_beacon_parent p) o h)))
  = alter (with_loop l) o (alter (with_beacon_parent p) o h).
Proof.
  apply map_eq. intros i. destruct (decide (i = o)) as [-> | Hne].
  - rewrite !lookup_alter_eq. by destruct (h !! o).
  - by rewrite !lookup_alter_ne.
Qed.

(** X2: With the sensors held as a set, resolving the dependencies a
    second time gives the same list and changes nothing more: in
    server mode the monitor is not added again and its beacon and loop
    stay as the first resolution set them.  A resolution calls no hook
    of the application and no task, starts no service, and leaves the
    children as they are. *)
Theorem on_init_dependencies_idempotent (w : World) :
  on_init_dependencies (after on_init_dependencies w)
  = (outcome on_init_dependencies w, after on_init_dependencies w)
  /\ events on_init_dependencies w = []
  /\ _children (self (after on_init_dependencies w)) = _children (self w).
Proof.
  unfold on_init_dependencies, _components_client, _components_server.
  run. destruct (client_only (app (self w))) eqn:Hmode; simpl;
    rewrite Hmode; simpl.
  - rewrite drop_all. by repeat split.
  - rewrite drop_all. split; [| by split].
    assert (Hs : {[monitor (app (self w))]}
                   ∪ ({[monitor (app (self w))]} ∪ sensors (app (self w)))
                 = {[monitor (app (self w))]} ∪ sensors (app (self w)))
      by set_solver.
    rewrite Hs. f_equal.
    destruct w as [[sid lp a ch fu ins st fd] h b tr].
    unfold with_self, with_app, with_sensors, with_heap. simpl in *.
    rewrite ?Hs. f_equal. apply rebind_twice.
Qed.

(** X3: What client-only mode starts is, in the same order, part of what
    server mode starts. *)
Theorem client_components_sublist (w : World) :
  exists cs ss : list ObjId,
    outcome _components_client w = Ok cs
    /\ outcome _components_server w = Ok ss
    /\ cs `sublist_of` ss.
Proof.
  unfold _components_client, _components_server. run.
  eexists _, _. split; [reflexivity | split; [reflexivity |]].
  apply sublist_inserts_l.
  do 2 apply sublist_skip. apply sublist_cons. apply sublist_skip.
  apply sublist_inserts_l.
  apply sublist_skip, sublist_cons, sublist_skip. constructor.
Qed.

(** X4: In server mode an object is started exactly when it is the monitor,
    a sensor, an agent or one of the seven fixed components; the list
    has one entry for each sensor, one more for the monitor unless it
    was a sensor already, one for each agent and seven more. *)
Theorem server_components_members (w : World) :
  exists ss : list ObjId,
    outcome _components_server w = Ok ss
    /\ (forall o : ObjId,
          o ∈ ss
          <-> o = monitor (the_app w)
              \/ o ∈ sensors (the_app w)
              \/ o ∈ values (agents (the_app w))
              \/ o ∈ fixed_components (the_app w))
    /\ length ss
       = size (sensors (the_app w))
         + (if decide (monitor (the_app w) ∈ sensors (the_app w))
            then 0 else 1)
         + length (agents (the_app w))
         + 7.
Proof.
  unfold _components_server. run. eexists. split; [reflexivity |].
  generalize (app (self w)). intros a. unfold fixed_components. split.
  - intros o. rewrite elem_of_app, elem_of_elements.
    rewrite !elem_of_cons, elem_of_app, !elem_of_cons.
    rewrite elem_of_union, elem_of_singleton.
    rewrite !elem_of_nil. tauto.
  - rewrite length_app. simpl. rewrite length_app. simpl.
    unfold values. rewrite length_map.
    change (length (elements ({[monitor a]} ∪ sensors a)))
      with (size ({[monitor a]} ∪ sensors a)).
    destruct (decide (monitor a ∈ sensors a)) as [Hin | Hout].
    + assert (Hs : {[monitor a]} ∪ sensors a = sensors a) by set_solver.
      rewrite Hs. lia.
    + rewrite size_union by set_solver. rewrite size_singleton. lia.
Qed.

End TopologyMore.

(** ** More on the extra tasks *)

Section TasksMore.

Lemma no_parameter_accepts (t : Task) :
  task_parameters t = 0 -> accepts_call t = true.
Proof.
  unfold accepts_call, target_of, task_parameters. simpl.
  intros Hlen. apply nil_length_inv in Hlen. by rewrite Hlen.
Qed.

(** The call that is rejected is a call on the application: a call
    without argument is made only for a task without parameter, which
    accepts it. *)
Lemma rejected_takes_app (t : Task) :
  accepts_call t = false -> coro_args (target_of t) = [TheApp].
Proof.
  intros Hrej. unfold target_of. simpl.
  destruct (task_parameters t =? 0)%nat eqn:Hzero; [| reflexivity].
  apply Nat.eqb_eq, no_parameter_accepts in Hzero. congruence.
Qed.

Lemma prefix_before_rejection (before later : list Task) (t : Task) :
  Forall (fun t => accepts_call t = true) before ->
  accepts_call t = false ->
  accepted_prefix (before ++ t :: later) = before
  /\ first_rejected (before ++ t :: later) = Some t.
Proof.
  intros Hbefore Hrej.
  induction Hbefore as [| x before Hx _ [IH1 IH2]]; simpl.
  - by rewrite Hrej.
  - rewrite Hx. by rewrite IH1, IH2.
Qed.

Lemma first_rejected_None (ts : list Task) :
  first_rejected ts = None <-> Forall (fun t => accepts_call t = true) ts.
Proof.
  induction ts as [| t ts IH]; simpl.
  - split; [constructor | done].
  - destruct (accepts_call t) eqn:Hacc.
    + rewrite IH. split; [by constructor | by inversion 1].
    + split; [done |]. inversion 1; congruence.
Qed.

Lemma first_rejected_Some (ts : list Task) :
  first_rejected ts <> None <-> Exists (fun t => accepts_call t = false) ts.
Proof.
  induction ts as [| t ts IH]; simpl.
  - split; [done | inversion 1].
  - destruct (accepts_call t) eqn:Hacc.
    + rewrite IH. split; [by right |].
      inversion 1; [congruence | done].
    + split; [by left | done].
Qed.

(** X5: The activation of the extra tasks has no guard: when every
    registered task accepts its call, a second activation calls and
    registers every task again, so that each task is scheduled twice.
    An activation touches nothing but the futures; without tasks it
    changes nothing at all. *)
Theorem extra_tasks_scheduled_again (w : World) :
  Forall (fun t => accepts_call t = true) (_tasks (the_app w)) ->
  _futures (self (after on_started_init_extra_tasks
                    (after on_started_init_extra_tasks w)))
  = (_futures (self w)
       ++ map target_of (_tasks (the_app w))
       ++ map target_of (_tasks (the_app w)))%list
  /\ events on_started_init_extra_tasks (after on_started_init_extra_tasks w)
     = events on_started_init_extra_tasks w
  /\ the_app (after on_started_init_extra_tasks w) = the_app w
  /\ _children (self (after on_started_init_extra_tasks w))
     = _children (self w)
  /\ _extra_service_instances (self (after on_started_init_extra_tasks w))
     = _extra_service_instances (self w)
  /\ heap (after on_started_init_extra_tasks w) = heap w
  /\ (_tasks (the_app w) = [] -> after on_started_init_extra_tasks w = w).
Proof.
  intros Hall. unfold events, after.
  rewrite (on_started_init_extra_tasks_runs w Hall).
  cbn [snd]. rewrite on_started_init_extra_tasks_runs by exact Hall.
  unfold the_app.
  simpl. rewrite !drop_trace. rewrite <- app_assoc.
  repeat split. intros ->. simpl. apply with_nothing.
Qed.

Lemma extra_tasks_scheduled_again_witness :
  let w := Examples.example_world false [("agent", 10)] false in
  _futures (self (after on_started_init_extra_tasks
                    (after on_started_init_extra_tasks w)))
  = [target_of Examples.timer; target_of Examples.on_app;
     target_of Examples.timer; target_of Examples.on_app].
Proof.
  intros w.
  assert (Hall : Forall (fun t => accepts_call t = true) (_tasks (the_app w)))
    by (repeat constructor).
  destruct (extra_tasks_scheduled_again w Hall) as (Hfut & _).
  exact Hfut.
Defined.

(** X12: When a registered task rejects its call and all the tasks
    before it accept theirs, [on_started_init_extra_tasks] raises
    [TypeError]: the tasks before are called and registered, the
    rejecting task is called on the application and not registered,
    and no later task is called; nothing but the futures changes. *)
Theorem extra_tasks_stop_at_rejection (w : World)
    (before later : list Task) (t : Task) :
  _tasks (the_app w) = (before ++ t :: later)%list ->
  Forall (fun t => accepts_call t = true) before ->
  accepts_call t = false ->
  outcome on_started_init_extra_tasks w = Raise TypeError
  /\ _futures (self (after on_started_init_extra_tasks w))
     = (_futures (self w) ++ map target_of before)%list
  /\ events on_started_init_extra_tasks w
     = (concat (map activation (map target_of before))
          ++ [TaskCall t [TheApp]])%list
  /\ the_app (after on_started_init_extra_tasks w) = the_app w
  /\ _children (self (after on_started_init_extra_tasks w))
     = _children (self w)
  /\ heap (after on_started_init_extra_tasks w) = heap w.
Proof.
  intros Htasks Hbefore Hrej. unfold events, outcome, after.
  rewrite on_started_init_extra_tasks_stops. rewrite Htasks.
  destruct (prefix_before_rejection before later t Hbefore Hrej)
    as [Hp Hr].
  unfold tasks_outcome, rejected_call. rewrite Hp, Hr.
  rewrite (rejected_takes_app t Hrej). simpl.
  rewrite drop_trace. by repeat split.
Qed.

Lemma extra_tasks_stop_at_rejection_witness :
  let w := tasked [Examples.timer; Examples.kwonly; Examples.on_app]
             (Examples.example_world false [("agent", 10)] false) in
  outcome on_started_init_extra_tasks w = Raise TypeError
  /\ _futures (self (after on_started_init_extra_tasks w))
     = [target_of Examples.timer]
  /\ events on_started_init_extra_tasks w
     = [TaskCall Examples.timer [];
        AddFuture (target_of Examples.timer);
        TaskCall Examples.kwonly [TheApp]].
Proof.
  intros w.
  destruct (extra_tasks_stop_at_rejection w [Examples.timer]
              [Examples.on_app] Examples.kwonly eq_refl)
    as (Hout & Hfut & Hev & _).
  - by repeat constructor.
  - reflexivity.
  - exact (conj Hout (conj Hfut Hev)).
Defined.

End TasksMore.

(** ** More on the extra services *)

Section ServicesMore.

(** The store after the start of the services of [l]: those of [l] are
    [Started], with their loop and beacon as before; the others are
    as before. *)
Lemma started_all_lookup (l : list ObjId) (h : gmap nat ServiceObj)
    (o : ObjId) :
  started_all l h !! o
  = if decide (o ∈ l) then with_state Started <$> h !! o else h !! o.
Proof.
  unfold started_all. revert h.
  induction l as [| x l IH]; intros h; cbn [foldl].
  - destruct (decide (o ∈ [])) as [Hin | _]; [inversion Hin | reflexivity].
  - rewrite IH. destruct (decide (o = x)) as [-> | Hne].
    + rewrite lookup_alter_eq.
      destruct (decide (x ∈ x :: l)) as [_ | Hout].
      * destruct (decide (x ∈ l)); [| reflexivity]. by destruct (h !! x).
      * exfalso. apply Hout. left.
    + rewrite lookup_alter_ne by done.
      destruct (decide (o ∈ l)) as [Hin | Hout];
        destruct (decide (o ∈ x :: l)) as [Hin' | Hout'];
        try reflexivity.
      * exfalso. apply Hout'. by right.
      * exfalso. apply elem_of_cons in Hin' as [-> | Hin']; done.
Qed.

Lemma class_instances_among (es : list ExtraService) (l : list ObjId)
    (o : ObjId) :
  o ∈ class_instances es l -> o ∈ l.
Proof.
  revert l. induction es as [| [o' | cls] es IH]; intros [| x l] Hin;
    simpl in Hin; try by inversion Hin.
  - right. by apply IH.
  - apply elem_of_cons in Hin as [-> | Hin]; [left | right; by apply IH].
Qed.

(** What [_prepare_subservice] does to the store over the whole list:
    nothing is removed or changed; each class gives one new object,
    bound to the service, and these objects are pairwise different and
    different from the service. *)
Lemma prepare_store (es : list ExtraService) (w : World)
    (l : list ObjId) (w' : World) :
  comprehension _prepare_subservice es w = (Ok l, w') ->
  heap w ⊆ heap w'
  /\ NoDup (class_instances es l)
  /\ forall o, o ∈ class_instances es l ->
       heap w !! o = None
       /\ o <> self_id (self w)
       /\ heap w' !! o = Some (bound_to (self w) Init).
Proof.
  revert w l w'. induction es as [| [o' | cls] es IH]; intros w l w' H.
  - simpl in H. injection H as <- <-.
    split; [done | split; [constructor | intros o Hin; inversion Hin]].
  - simpl in H. unfold bnd at 1 in H. simpl in H. unfold ret at 1 in H.
    unfold bnd in H.
    destruct (comprehension _prepare_subservice es w) as [[l1 | e] w1]
      eqn:Hc; [| discriminate].
    injection H as <- <-. simpl. by apply IH.
  - cbn [comprehension] in H. unfold bnd at 1 in H.
    rewrite prepare_class in H.
    cbv beta iota in H. unfold bnd in H.
    match type of H with
    | context [comprehension _ es ?w0] =>
        destruct (comprehension _prepare_subservice es w0)
          as [[l1 | e] w1] eqn:Hc; [| discriminate];
        destruct (IH w0 l1 w1 Hc) as (Hsub & Hnd & Hall)
    end.
    injection H as <- <-. simpl in *.
    set (o := fresh ({[self_id (self w)]} ∪ dom (heap w))) in *.
    assert (Hfresh : o ∉ {[self_id (self w)]} ∪ dom (heap w))
      by apply is_fresh.
    assert (Hnone : heap w !! o = None)
      by (apply not_elem_of_dom; set_solver).
    split; [| split].
    + etrans; [| exact Hsub]. by apply insert_subseteq.
    + constructor; [| exact Hnd]. intros Hin.
      destruct (Hall o Hin) as (Hn & _). by rewrite lookup_insert_eq in Hn.
    + intros x [-> | Hin]%elem_of_cons.
      * split; [exact Hnone | split; [set_solver |]].
        eapply lookup_weaken; [| exact Hsub]. apply lookup_insert_eq.
      * destruct (Hall x Hin) as (Hn & Hid & Hb).
        split; [| by split].
        apply lookup_insert_None in Hn. tauto.
Qed.

(** X6: On its first activation, every class among the extra services gives
    one new object, different from the service and from the object of
    any other entry that is a class; it ends on the loop of the
    service, its beacon under the service, and [Started]. *)
Theorem extra_services_bound_to_service (w : World) :
  _extra_service_instances (self w) = None ->
  exists l : list ObjId,
    _extra_service_instances (self (after on_started_init_extra_services w))
    = Some l
    /\ NoDup (class_instances (_extra_services (the_app w)) l)
    /\ (forall o : ObjId,
          o ∈ class_instances (_extra_services (the_app w)) l ->
          heap w !! o = None
          /\ o <> self_id (self w)
          /\ heap (after on_started_init_extra_services w) !! o
             = Some (bound_to (self w) Started)).
Proof.
  intros Hnone.
  destruct (extra_services_first w Hnone)
    as (l & w1 & evs & Hc & _ & _ & _ & _ & _ & Heq).
  destruct (prepare_store _ _ _ _ Hc) as (Hsub & Hnd & Hall).
  exists l. unfold after. rewrite Heq. simpl.
  split; [reflexivity | split; [exact Hnd |]].
  intros o Hin. destruct (Hall o Hin) as (Hn & Hid & Hb).
  split; [exact Hn | split; [exact Hid |]].
  rewrite started_all_lookup, Hb.
  rewrite decide_True by (eapply class_instances_among; exact Hin).
  reflexivity.
Qed.

Lemma extra_services_bound_to_service_witness :
  let w := Examples.example_world false [("agent", 10)] false in
  heap w !! 12 = None
  /\ heap (after on_started_init_extra_services w) !! 12
     = Some {| svc_loop := 1; svc_beacon_parent := Some 0;
               svc_state := Started |}.
Proof.
  intros w.
  destruct (extra_services_bound_to_service w eq_refl)
    as (l & Hl & _ & Hclass).
  assert (l = [11; 12]) as -> by (vm_compute in Hl; congruence).
  destruct (Hclass 12) as (Hnone & _ & Hbound).
  { vm_compute. set_solver. }
  exact (conj Hnone Hbound).
Defined.

(** X7: The guard is one-shot: once the first activation has run, the
    registry of the application is never read again, so that whatever
    is registered afterwards is neither instantiated nor started.  With
    an empty registry the first activation still sets the field, to the
    empty list, and starts nothing. *)
Theorem extra_services_guard_one_shot (w : World) :
  _extra_service_instances (self w) = None ->
  (forall es : list ExtraService,
     on_started_init_extra_services
       (registered es (after on_started_init_extra_services w))
     = (Ok tt, registered es (after on_started_init_extra_services w)))
  /\ (_extra_services (the_app w) = [] ->
      _extra_service_instances
        (self (after on_started_init_extra_services w)) = Some []
      /\ _children (self (after on_started_init_extra_services w))
         = _children (self w)
      /\ heap (after on_started_init_extra_services w) = heap w
      /\ events on_started_init_extra_services w = []).
Proof.
  intros Hnone. split.
  - intros es. apply extra_services_again.
    destruct (extra_services_first w Hnone)
      as (l & w1 & evs & _ & _ & _ & _ & _ & _ & Heq).
    unfold after. rewrite Heq. done.
  - intros Hempty. unfold on_started_init_extra_services. run.
    rewrite Hnone. simpl. rewrite Hempty. simpl.
    rewrite drop_all. by repeat split.
Qed.

Lemma extra_services_guard_one_shot_witness :
  let w := Examples.example_world false [("agent", 10)] false in
  on_started_init_extra_services
    (registered [ServiceClass "Late"]
       (after on_started_init_extra_services w))
  = (Ok tt,
     registered [ServiceClass "Late"]
       (after on_started_init_extra_services w)).
Proof.
  intros w.
  destruct (extra_services_guard_one_shot w eq_refl) as (Hlate & _).
  exact (Hlate [ServiceClass "Late"]).
Defined.

End ServicesMore.

(** ** More on [on_started] *)

Section StartedMore.

(** The activation of the extra services leaves the guard set. *)
Lemma extra_services_set_the_guard (w : World) :
  _extra_service_instances (self (after on_started_init_extra_services w))
  <> None.
Proof.
  destruct (_extra_service_instances (self w)) as [l |] eqn:Hinst.
  - unfold after. rewrite extra_services_again by congruence.
    simpl. congruence.
  - destruct (extra_services_first w Hinst)
      as (l & w1 & evs & _ & _ & _ & _ & _ & _ & Heq).
    unfold after. by rewrite Heq.
Qed.

Lemma on_started_keeps_standing : preserves standing on_started.
Proof. frame. Qed.

Lemma on_started_keeps_the_barrier :
  preserves stopped_during_recovery on_started.
Proof. frame. Qed.

(** [on_started] when recovery completed: what follows the wait. *)
Lemma on_started_after_wait (w : World) :
  stopped_during_recovery w = false ->
  on_started w
  = (on_started_init_extra_tasks ;;
     on_started_init_extra_services ;;
     a <- gets the_app ;;
     (if on_startup_finished a then app_call startup_finished
      else ret tt) ;;
     app_call app_on_started)
      (with_trace (trace w ++ [WaitForStopped false]) w).
Proof.
  intros Hnormal. unfold on_started.
  step (wait_resolved w). by rewrite Hnormal.
Qed.

(** [on_started] when a task rejects its call: the exception of the
    task phase is the end of it. *)
Lemma on_started_rejected (w : World) (t : Task) :
  stopped_during_recovery w = false ->
  first_rejected (_tasks (the_app w)) = Some t ->
  on_started w
  = (Raise TypeError,
     snd (on_started_init_extra_tasks
            (with_trace (trace w ++ [WaitForStopped false]) w))).
Proof.
  intros Hnormal Hrej. rewrite on_started_after_wait by exact Hnormal.
  unfold bnd at 1. rewrite on_started_init_extra_tasks_stops.
  unfold tasks_outcome. change (the_app (with_trace _ w)) with (the_app w).
  by rewrite Hrej.
Qed.

(** [on_started] when every task accepts its call: it returns. *)
Lemma on_started_accepted (w : World) :
  stopped_during_recovery w = false ->
  Forall (fun t => accepts_call t = true) (_tasks (the_app w)) ->
  outcome on_started w = Ok tt.
Proof.
  intros Hnormal Hall. unfold outcome.
  rewrite on_started_after_wait by exact Hnormal.
  step (on_started_init_extra_tasks_runs
          (with_trace (trace w ++ [WaitForStopped false]) w) Hall).
  match goal with
  | |- context [bnd on_started_init_extra_services _ ?w2] =>
      destruct (extra_services_any w2) as (w3 & evs & Heq & _)
  end.
  step Heq. run. by destruct (on_startup_finished (app (self w3))).
Qed.

(** [on_started] ends with the guard of the extra services set, unless
    it was skipped or cut short. *)
Lemma on_started_sets_the_guard (w : World) :
  stopped_during_recovery w = false ->
  Forall (fun t => accepts_call t = true) (_tasks (the_app w)) ->
  _extra_service_instances (self (after on_started w)) <> None.
Proof.
  intros Hnormal Hall. unfold after.
  rewrite on_started_after_wait by exact Hnormal.
  step (on_started_init_extra_tasks_runs
          (with_trace (trace w ++ [WaitForStopped false]) w) Hall).
  match goal with
  | |- context [bnd on_started_init_extra_services _ ?w2] =>
      pose proof (extra_services_set_the_guard w2) as Hguard;
      unfold after in Hguard; unfold bnd at 1;
      destruct (on_started_init_extra_services w2) as [[[] | e] w3]
  end.
  - run. by destruct (on_startup_finished (app (self w3))).
  - exact Hguard.
Qed.

(** [on_started] where the extra services have been materialized
    already: the tasks, then the callback and the hook. *)
Lemma on_started_rerun (w : World) :
  stopped_during_recovery w = false ->
  Forall (fun t => accepts_call t = true) (_tasks (the_app w)) ->
  _extra_service_instances (self w) <> None ->
  on_started w
  = (Ok tt,
     with_trace
       (trace w
          ++ [WaitForStopped false]
          ++ concat (map activation (map target_of (_tasks (the_app w))))
          ++ (if on_startup_finished (the_app w)
              then [AppCall startup_finished] else [])
          ++ [AppCall app_on_started])
       (with_self
          (with_futures
             (_futures (self w) ++ map target_of (_tasks (the_app w)))
             (self w))
          w)).
Proof.
  intros Hnormal Hall Hguard.
  rewrite on_started_after_wait by exact Hnormal.
  step (on_started_init_extra_tasks_runs
          (with_trace (trace w ++ [WaitForStopped false]) w) Hall).
  unfold bnd at 1. rewrite extra_services_again by exact Hguard.
  run. destruct (on_startup_finished (app (self w))); simpl;
    unfold with_trace; simpl; by rewrite <- !app_assoc.
Qed.

(** X8: [on_started] returns exactly when the wait ends by a stop or every
    registered task accepts the call made for it; it raises
    [TypeError] exactly when recovery completed and some registered
    task rejects its call. *)
Theorem on_started_raises_iff_task_rejects (w : World) :
  (outcome on_started w = Ok tt
   <-> stopped_during_recovery w = true
       \/ Forall (fun t => accepts_call t = true) (_tasks (the_app w)))
  /\ (outcome on_started w = Raise TypeError
      <-> stopped_during_recovery w = false
          /\ Exists (fun t => accepts_call t = false) (_tasks (the_app w))).
Proof.
  split.
  - destruct (stopped_during_recovery w) eqn:Hbar.
    + split; [by left |]. intros _. unfold outcome, on_started.
      step (wait_resolved w). by rewrite Hbar.
    + destruct (first_rejected (_tasks (the_app w))) as [t |] eqn:Hrej.
      * unfold outcome. rewrite (on_started_rejected w t Hbar Hrej). simpl.
        split; [done |]. intros [| Hall]; [done |].
        apply first_rejected_None in Hall. congruence.
      * apply first_rejected_None in Hrej.
        split; [by right |]. intros _. by apply on_started_accepted.
  - destruct (stopped_during_recovery w) eqn:Hbar.
    + split; [| by intros []]. unfold outcome, on_started.
      step (wait_resolved w). by rewrite Hbar.
    + destruct (first_rejected (_tasks (the_app w))) as [t |] eqn:Hrej.
      * unfold outcome. rewrite (on_started_rejected w t Hbar Hrej). simpl.
        split; [| done]. intros _. split; [done |].
        apply first_rejected_Some. congruence.
      * split.
        -- apply first_rejected_None in Hrej.
           rewrite (on_started_accepted w Hbar Hrej). done.
        -- intros [_ Hex]. apply first_rejected_Some in Hex. congruence.
Qed.

(** X13: When recovery completed and a registered task rejects its call
    (the tasks before it accepting theirs), [on_started] raises
    [TypeError] in the task phase and nothing after it runs: the
    events are the wait, the activations before, and the rejected
    call; no service is instantiated or started, neither
    [on_startup_finished] nor the [on_started] hook of the application
    is called, and the guard of the extra services, the children and
    the store are as they were. *)
Theorem on_started_stops_at_rejection (w : World)
    (before later : list Task) (t : Task) :
  stopped_during_recovery w = false ->
  _tasks (the_app w) = (before ++ t :: later)%list ->
  Forall (fun t => accepts_call t = true) before ->
  accepts_call t = false ->
  outcome on_started w = Raise TypeError
  /\ events on_started w
     = ([WaitForStopped false]
          ++ concat (map activation (map target_of before))
          ++ [TaskCall t [TheApp]])%list
  /\ _futures (self (after on_started w))
     = (_futures (self w) ++ map target_of before)%list
  /\ _extra_service_instances (self (after on_started w))
     = _extra_service_instances (self w)
  /\ _children (self (after on_started w)) = _children (self w)
  /\ heap (after on_started w) = heap w.
Proof.
  intros Hnormal Htasks Hbefore Hrej.
  destruct (prefix_before_rejection before later t Hbefore Hrej)
    as [Hp Hr].
  assert (Hfirst : first_rejected (_tasks (the_app w)) = Some t)
    by (by rewrite Htasks).
  unfold events, outcome, after.
  rewrite (on_started_rejected w t Hnormal Hfirst).
  rewrite on_started_init_extra_tasks_stops.
  change (the_app (with_trace _ w)) with (the_app w).
  unfold rejected_call. rewrite Htasks, Hp, Hr.
  rewrite (rejected_takes_app t Hrej). simpl.
  rewrite <- app_assoc, drop_trace. by repeat split.
Qed.

Lemma on_started_stops_at_rejection_witness :
  let w := tasked [Examples.timer; Examples.two; Examples.on_app]
             (Examples.example_world false [("agent", 10)] false) in
  outcome on_started w = Raise TypeError
  /\ events on_started w
     = [WaitForStopped false;
        TaskCall Examples.timer [];
        AddFuture (target_of Examples.timer);
        TaskCall Examples.two [TheApp]]
  /\ _extra_service_instances (self (after on_started w)) = None
  /\ _children (self (after on_started w)) = [].
Proof.
  intros w.
  destruct (on_started_stops_at_rejection w [Examples.timer]
              [Examples.on_app] Examples.two eq_refl eq_refl)
    as (Hout & Hev & _ & Hinst & Hch & _).
  - by repeat constructor.
  - reflexivity.
  - exact (conj Hout (conj Hev (conj Hinst Hch))).
Defined.

(** X9: A second [on_started] (recovery completed both times, every
    registered task accepting its call) schedules every task a second
    time and calls the callback and the hook again, but starts no
    service: its events hold no instantiation and no service start,
    and the children and the instances are those the first run
    left. *)
Theorem on_started_again (w : World) :
  stopped_during_recovery w = false ->
  Forall (fun t => accepts_call t = true) (_tasks (the_app w)) ->
  outcome on_started (after on_started w) = Ok tt
  /\ events on_started (after on_started w)
     = ([WaitForStopped false]
          ++ concat (map activation (map target_of (_tasks (the_app w))))
          ++ (if on_startup_finished (the_app w)
              then [AppCall startup_finished] else [])
          ++ [AppCall app_on_started])%list
  /\ _futures (self (after on_started (after on_started w)))
     = (_futures (self (after on_started w))
          ++ map target_of (_tasks (the_app w)))%list
  /\ _children (self (after on_started (after on_started w)))
     = _children (self (after on_started w))
  /\ _extra_service_instances (self (after on_started (after on_started w)))
     = _extra_service_instances (self (after on_started w))
  /\ heap (after on_started (after on_started w))
     = heap (after on_started w).
Proof.
  intros Hnormal Hall.
  pose proof (on_started_sets_the_guard w Hnormal Hall) as Hguard.
  pose proof (on_started_keeps_the_barrier w) as Hbar.
  pose proof (on_started_keeps_standing w) as Hst.
  fold (after on_started w) in Hbar, Hst.
  assert (Happ : the_app (after on_started w) = the_app w)
    by (unfold standing in Hst; congruence).
  rewrite Hnormal in Hbar. rewrite <- Happ in Hall.
  pose proof (on_started_rerun _ Hbar Hall Hguard) as Hrun.
  rewrite Happ in Hrun. clear Hguard Hbar Hst Happ Hall.
  generalize dependent (after on_started w). intros w1 Hrun.
  unfold events, outcome, after. rewrite Hrun. simpl.
  rewrite drop_trace. by repeat split.
Qed.

Lemma on_started_again_witness :
  let w := Examples.example_world false [("agent", 10)] false in
  events on_started (after on_started w)
  = [WaitForStopped false;
     TaskCall Examples.timer [];
     AddFuture (target_of Examples.timer);
     TaskCall Examples.on_app [TheApp];
     AddFuture (target_of Examples.on_app);
     AppCall startup_finished;
     AppCall app_on_started]
  /\ _children (self (after on_started (after on_started w))) = [11; 12].
Proof.
  intros w.
  assert (Hall : Forall (fun t => accepts_call t = true) (_tasks (the_app w)))
    by (repeat constructor).
  destruct (on_started_again w eq_refl Hall) as (_ & Hev & _ & Hch & _).
  split; [exact Hev |]. rewrite Hch. vm_compute. reflexivity.
Defined.

(** The first [on_started] that materializes: where it ends. *)
Lemma on_started_first_run (w : World) :
  stopped_during_recovery w = false ->
  Forall (fun t => accepts_call t = true) (_tasks (the_app w)) ->
  _extra_service_instances (self w) = None ->
  exists (l : list ObjId) (wf : World),
    Forall2 materializes (_extra_services (the_app w)) l
    /\ on_started w = (Ok tt, wf)
    /\ _futures (self wf)
       = (_futures (self w) ++ map target_of (_tasks (the_app w)))%list
    /\ _children (self wf) = (_children (self w) ++ l)%list.
Proof.
  intros Hnormal Hall Hnone.
  rewrite on_started_after_wait by exact Hnormal.
  step (on_started_init_extra_tasks_runs
          (with_trace (trace w ++ [WaitForStopped false]) w) Hall).
  match goal with
  | |- context [bnd on_started_init_extra_services _ ?w2] =>
      destruct (extra_services_first w2 Hnone)
        as (l & w1 & evs & _ & _ & _ & _ & _ & Hm & Heq)
  end.
  step Heq. run. exists l.
  destruct (on_startup_finished (app (self w))); simpl;
    eexists; (split; [exact Hm |]); (split; [reflexivity |]);
    split; reflexivity.
Qed.

(** X10: The first [on_started] after recovery, every registered task
    accepting its call, activates everything that is registered: the
    service gains one future for each extra task and one child for
    each extra service. *)
Theorem on_started_activates_everything (w : World) :
  stopped_during_recovery w = false ->
  Forall (fun t => accepts_call t = true) (_tasks (the_app w)) ->
  _extra_service_instances (self w) = None ->
  length (_futures (self (after on_started w)))
  = length (_futures (self w)) + length (_tasks (the_app w))
  /\ length (_children (self (after on_started w)))
     = length (_children (self w)) + length (_extra_services (the_app w)).
Proof.
  intros Hnormal Hall Hnone.
  destruct (on_started_first_run w Hnormal Hall Hnone)
    as (l & wf & Hm & Hrun & Hfut & Hch).
  unfold after. rewrite Hrun. simpl. rewrite Hfut, Hch.
  apply Forall2_length in Hm.
  by rewrite !length_app, length_map, Hm.
Qed.

Lemma on_started_activates_everything_witness :
  let w := Examples.example_world false [("agent", 10)] false in
  length (_futures (self (after on_started w))) = 2
  /\ length (_children (self (after on_started w))) = 2.
Proof.
  intros w.
  assert (Hall : Forall (fun t => accepts_call t = true) (_tasks (the_app w)))
    by (repeat constructor).
  exact (on_started_activates_everything w eq_refl Hall eq_refl).
Defined.

End StartedMore.
